(** * DrawingCanvas: the drawing engine of the note application

    A shallow embedding of [src/lib/components/drawing/DrawingCanvas.svelte]:
    the shape model, the shape factory, the eraser with its hit test, the
    snapshot history (undo / redo) and the load / save boundary, with the
    actions of [notesStore.js] and [MainEditor.svelte] that store a drawing
    in a note.

    Conventions of the embedding.
    - A JavaScript number is a binary64 floating-point number ([float]):
      [+], [-], [*], [/], [Math.sqrt] and [Math.abs] are the correctly
      rounded operations of IEEE 754, a comparison with NaN is false, and
      [a ** 2] is the rounded product [a * a].
    - A JavaScript array is a list in index order: [push] appends at the end,
      [pop] takes the last element, [shift] drops the first one.
    - The component's [let] variables are the fields of the record [Canvas];
      every handler is a function [Canvas -> Canvas].  Of the 2D context only
      its presence matters: [ctx] is assigned in [onMount] only when the
      canvas element exists at that moment, and a handler that redraws while
      [ctx] is undefined is ended there by a TypeError, the assignments it
      made before that staying in place.
    - A pointer event is represented by the canvas-space position the handler
      computes from it ([getMousePos] / [getTouchPos]).
    - Arrays and shape objects are represented by their contents.  Inside the
      component the array [drawings] and its shape objects have no other
      holder: the history keeps texts.  The array is shared with the outside
      at two places only, [saveDrawing] and [loadDrawing]; what is said of
      them is said of the contents at the moment of the call. *)

From Stdlib Require Import Floats QArith Qabs Lia String Bool Arith List.
From Stdlib Require Import Permutation.
Import ListNotations.

Open Scope float_scope.

(** ** Numbers *)

(** [Math.min(a, b)]: NaN when an argument is NaN, and -0 below +0. *)
Definition Math_min (a b : float) : float :=
  if is_nan a || is_nan b then nan
  else if a <? b then a
  else if b <? a then b
  else if get_sign a then a else b.

(** What a number field of a shape holds: a number, or [null] once
    [JSON.parse] has read back what [JSON.stringify] printed for NaN or an
    infinity. *)
Inductive value : Type :=
| Num (f : float)
| Null.

Coercion Num : float >-> value.

(** The number an arithmetic operator or a comparison takes for a field:
    [null] counts as 0. *)
Definition ToNumber (v : value) : float :=
  match v with
  | Num f => f
  | Null => 0
  end.

(** The rational number a finite binary64 number stands for (0 for NaN and
    the infinities, which stand for none). *)
Definition exact (f : float) : Q :=
  match Prim2SF f with
  | S754_finite s m e => ((if s then -1 else 1) * (Zpos m # 1) * Qpower 2 e)%Q
  | _ => 0%Q
  end.

(** ** Data model *)

(** A canvas-space position, [{x, y}] as [getMousePos] returns it. *)
Record Pos : Type := mkPos { pos_x : float; pos_y : float }.

(** A point of a freehand path. *)
Record Point : Type := mkPoint { px : value; py : value }.

(** [{ x: pos.x, y: pos.y }] *)
Definition point_at (pos : Pos) : Point := mkPoint (pos_x pos) (pos_y pos).

(** The objects pushed on [drawings]; the constructor is the [type] field. *)
Inductive Shape : Type :=
| Path (path : list Point) (strokeColor : string) (strokeWidth roughness : value)
| Rectangle (x y width height : value)
            (strokeColor : string) (strokeWidth : value) (fillColor : string)
            (roughness : value)
| Circle (x y radius : value)
         (strokeColor : string) (strokeWidth : value) (fillColor : string)
         (roughness : value)
| Line (x1 y1 x2 y2 : value) (strokeColor : string)
       (strokeWidth roughness : value).

(** The [id]s of the [tools] table. *)
Module Tool.
Inductive t : Type := pen | rectangle | circle | line | eraser.
End Tool.

(** ** JSON texts

    [JSON.stringify] and [JSON.parse] are represented on the syntax tree of
    the text; objects keep their fields in insertion order.  A finite number
    is printed so that it is read back as the same number, except that -0 is
    printed as [0]; NaN and the infinities are printed as [null]. *)

#[local] Unset Elimination Schemes.
Inductive json : Type :=
| JNull
| JNum (r : float)
| JStr (s : string)
| JArr (items : list json)
| JObj (fields : list (string * json)).
#[local] Set Elimination Schemes.

Definition json_of_number (v : value) : json :=
  match v with
  | Num f => if is_finite f then JNum (if f =? 0 then 0 else f) else JNull
  | Null => JNull
  end.

Definition json_of_point (p : Point) : json :=
  JObj [("x", json_of_number (px p)); ("y", json_of_number (py p))]%string.

Definition json_of_shape (sh : Shape) : json :=
  match sh with
  | Path pts c w r =>
      JObj [("type", JStr "path"); ("path", JArr (map json_of_point pts));
            ("strokeColor", JStr c); ("strokeWidth", json_of_number w);
            ("roughness", json_of_number r)]%string
  | Rectangle x y w h c sw f r =>
      JObj [("type", JStr "rectangle");
            ("x", json_of_number x); ("y", json_of_number y);
            ("width", json_of_number w); ("height", json_of_number h);
            ("strokeColor", JStr c); ("strokeWidth", json_of_number sw);
            ("fillColor", JStr f); ("roughness", json_of_number r)]%string
  | Circle x y rad c sw f r =>
      JObj [("type", JStr "circle");
            ("x", json_of_number x); ("y", json_of_number y);
            ("radius", json_of_number rad);
            ("strokeColor", JStr c); ("strokeWidth", json_of_number sw);
            ("fillColor", JStr f); ("roughness", json_of_number r)]%string
  | Line x1 y1 x2 y2 c sw r =>
      JObj [("type", JStr "line");
            ("x1", json_of_number x1); ("y1", json_of_number y1);
            ("x2", json_of_number x2); ("y2", json_of_number y2);
            ("strokeColor", JStr c); ("strokeWidth", json_of_number sw);
            ("roughness", json_of_number r)]%string
  end.

(** [JSON.stringify(drawings)] *)
Definition JSON_stringify (ds : list Shape) : json :=
  JArr (map json_of_shape ds).

Fixpoint field (k : string) (fs : list (string * json)) : option json :=
  match fs with
  | [] => None
  | (k', v) :: rest => if String.eqb k k' then Some v else field k rest
  end.

(** What a number field gets from the text: a number, or [null]. *)
Definition number_of_json (j : json) : option value :=
  match j with
  | JNum r => Some (Num r)
  | JNull => Some Null
  | _ => None
  end.

Definition num_field (k : string) (fs : list (string * json)) : option value :=
  match field k fs with
  | Some j => number_of_json j
  | None => None
  end.

Definition str_field (k : string) (fs : list (string * json)) : option string :=
  match field k fs with Some (JStr s) => Some s | _ => None end.

Definition arr_field (k : string) (fs : list (string * json))
  : option (list json) :=
  match field k fs with Some (JArr l) => Some l | _ => None end.

Definition bind {A B : Type} (o : option A) (k : A -> option B) : option B :=
  match o with Some a => k a | None => None end.

Notation "x <- o ;; k" := (bind o (fun x => k))
  (at level 61, o at next level, right associativity).

Fixpoint traverse {A B : Type} (f : A -> option B) (l : list A)
  : option (list B) :=
  match l with
  | [] => Some []
  | a :: rest => b <- f a ;; bs <- traverse f rest ;; Some (b :: bs)
  end.

Definition point_of_json (j : json) : option Point :=
  match j with
  | JObj fs => x <- num_field "x" fs ;; y <- num_field "y" fs ;;
               Some (mkPoint x y)
  | _ => None
  end.

Definition shape_of_json (j : json) : option Shape :=
  match j with
  | JObj fs =>
      ty <- str_field "type" fs ;;
      c <- str_field "strokeColor" fs ;;
      sw <- num_field "strokeWidth" fs ;;
      r <- num_field "roughness" fs ;;
      if String.eqb ty "path" then
        l <- arr_field "path" fs ;;
        pts <- traverse point_of_json l ;;
        Some (Path pts c sw r)
      else if String.eqb ty "rectangle" then
        x <- num_field "x" fs ;; y <- num_field "y" fs ;;
        w <- num_field "width" fs ;; h <- num_field "height" fs ;;
        f <- str_field "fillColor" fs ;;
        Some (Rectangle x y w h c sw f r)
      else if String.eqb ty "circle" then
        x <- num_field "x" fs ;; y <- num_field "y" fs ;;
        rad <- num_field "radius" fs ;;
        f <- str_field "fillColor" fs ;;
        Some (Circle x y rad c sw f r)
      else if String.eqb ty "line" then
        x1 <- num_field "x1" fs ;; y1 <- num_field "y1" fs ;;
        x2 <- num_field "x2" fs ;; y2 <- num_field "y2" fs ;;
        Some (Line x1 y1 x2 y2 c sw r)
      else None
  | _ => None
  end.

(** [JSON.parse(text)], read as a shape list.  [None]: the text is not that
    of a shape list; the component never has such a text on a stack (see
    [history_entries_are_snapshots]). *)
Definition JSON_parse (j : json) : option (list Shape) :=
  match j with
  | JArr l => traverse shape_of_json l
  | _ => None
  end.

(** ** Component state *)

(** [ctx] tells whether the variables [ctx] and [roughCanvas] are defined;
    [canvas_width] and [canvas_height] are the [width] and [height] of the
    canvas element. *)
Record Canvas : Type := mkCanvas {
  isDrawing : bool;
  currentPath : list Point;
  drawings : list Shape;
  undoStack : list json;
  redoStack : list json;
  currentTool : Tool.t;
  strokeColor : string;
  strokeWidth : float;
  fillColor : string;
  roughness : float;
  startX : float;
  startY : float;
  currentX : float;
  currentY : float;
  canvas_width : float;
  canvas_height : float;
  ctx : bool
}.

Definition set_isDrawing (b : bool) (s : Canvas) : Canvas :=
  mkCanvas b (currentPath s) (drawings s) (undoStack s) (redoStack s)
    (currentTool s) (strokeColor s) (strokeWidth s) (fillColor s)
    (roughness s) (startX s) (startY s) (currentX s) (currentY s)
    (canvas_width s) (canvas_height s) (ctx s).

Definition set_currentPath (p : list Point) (s : Canvas) : Canvas :=
  mkCanvas (isDrawing s) p (drawings s) (undoStack s) (redoStack s)
    (currentTool s) (strokeColor s) (strokeWidth s) (fillColor s)
    (roughness s) (startX s) (startY s) (currentX s) (currentY s)
    (canvas_width s) (canvas_height s) (ctx s).

Definition set_drawings (d : list Shape) (s : Canvas) : Canvas :=
  mkCanvas (isDrawing s) (currentPath s) d (undoStack s) (redoStack s)
    (currentTool s) (strokeColor s) (strokeWidth s) (fillColor s)
    (roughness s) (startX s) (startY s) (currentX s) (currentY s)
    (canvas_width s) (canvas_height s) (ctx s).

Definition set_undoStack (u : list json) (s : Canvas) : Canvas :=
  mkCanvas (isDrawing s) (currentPath s) (drawings s) u (redoStack s)
    (currentTool s) (strokeColor s) (strokeWidth s) (fillColor s)
    (roughness s) (startX s) (startY s) (currentX s) (currentY s)
    (canvas_width s) (canvas_height s) (ctx s).

Definition set_redoStack (r : list json) (s : Canvas) : Canvas :=
  mkCanvas (isDrawing s) (currentPath s) (drawings s) (undoStack s) r
    (currentTool s) (strokeColor s) (strokeWidth s) (fillColor s)
    (roughness s) (startX s) (startY s) (currentX s) (currentY s)
    (canvas_width s) (canvas_height s) (ctx s).

Definition set_currentTool (t : Tool.t) (s : Canvas) : Canvas :=
  mkCanvas (isDrawing s) (currentPath s) (drawings s) (undoStack s)
    (redoStack s) t (strokeColor s) (strokeWidth s) (fillColor s)
    (roughness s) (startX s) (startY s) (currentX s) (currentY s)
    (canvas_width s) (canvas_height s) (ctx s).

Definition set_strokeColor (c : string) (s : Canvas) : Canvas :=
  mkCanvas (isDrawing s) (currentPath s) (drawings s) (undoStack s)
    (redoStack s) (currentTool s) c (strokeWidth s) (fillColor s)
    (roughness s) (startX s) (startY s) (currentX s) (currentY s)
    (canvas_width s) (canvas_height s) (ctx s).

Definition set_strokeWidth (w : float) (s : Canvas) : Canvas :=
  mkCanvas (isDrawing s) (currentPath s) (drawings s) (undoStack s)
    (redoStack s) (currentTool s) (strokeColor s) w (fillColor s)
    (roughness s) (startX s) (startY s) (currentX s) (currentY s)
    (canvas_width s) (canvas_height s) (ctx s).

Definition set_roughness (r : float) (s : Canvas) : Canvas :=
  mkCanvas (isDrawing s) (currentPath s) (drawings s) (undoStack s)
    (redoStack s) (currentTool s) (strokeColor s) (strokeWidth s)
    (fillColor s) r (startX s) (startY s) (currentX s) (currentY s)
    (canvas_width s) (canvas_height s) (ctx s).

Definition set_start (x y : float) (s : Canvas) : Canvas :=
  mkCanvas (isDrawing s) (currentPath s) (drawings s) (undoStack s)
    (redoStack s) (currentTool s) (strokeColor s) (strokeWidth s)
    (fillColor s) (roughness s) x y (currentX s) (currentY s)
    (canvas_width s) (canvas_height s) (ctx s).

Definition set_current (x y : float) (s : Canvas) : Canvas :=
  mkCanvas (isDrawing s) (currentPath s) (drawings s) (undoStack s)
    (redoStack s) (currentTool s) (strokeColor s) (strokeWidth s)
    (fillColor s) (roughness s) (startX s) (startY s) x y
    (canvas_width s) (canvas_height s) (ctx s).

(** [ctx = canvas.getContext('2d'); roughCanvas = rough.canvas(canvas);
    canvas.width = w; canvas.height = h] *)
Definition set_canvas (w h : float) (s : Canvas) : Canvas :=
  mkCanvas (isDrawing s) (currentPath s) (drawings s) (undoStack s)
    (redoStack s) (currentTool s) (strokeColor s) (strokeWidth s)
    (fillColor s) (roughness s) (startX s) (startY s) (currentX s)
    (currentY s) w h true.

(** The values of the [let] declarations of the script.  [ctx] is
    undefined; a canvas element is 300 x 150 until it is given another
    size. *)
Definition initial : Canvas :=
  mkCanvas false [] [] [] [] Tool.pen "#000000" 2 "transparent" 1
    0 0 0 0 300 150 false.

(** ** Rendering *)

(** [redrawCanvas()] draws on [ctx] and assigns none of the variables.  Its
    first statement, [ctx.fillStyle = '#ffffff'] in [clearCanvas], throws a
    TypeError when [ctx] is undefined, and the handler that called it ends
    there.  [true]: the call returns. *)
Definition redrawCanvas (s : Canvas) : bool := ctx s.

(** ** Geometry and hit testing *)

(** [isPointInShape(x, y, shape, radius)] *)
Definition isPointInShape (x y : float) (shape : Shape) (radius : float) : bool :=
  match shape with
  | Rectangle sx sy swidth sheight _ _ _ _ =>
      (ToNumber sx - radius <=? x) &&
      (x <=? ToNumber sx + ToNumber swidth + radius) &&
      (ToNumber sy - radius <=? y) &&
      (y <=? ToNumber sy + ToNumber sheight + radius)
  | Circle sx sy sradius _ _ _ _ =>
      let dist :=
        sqrt ((x - ToNumber sx) * (x - ToNumber sx)
              + (y - ToNumber sy) * (y - ToNumber sy)) in
      dist <=? ToNumber sradius + radius
  | Line x1 y1 x2 y2 _ _ _ =>
      let lineLength :=
        sqrt ((ToNumber x2 - ToNumber x1) * (ToNumber x2 - ToNumber x1)
              + (ToNumber y2 - ToNumber y1) * (ToNumber y2 - ToNumber y1)) in
      let distToLine :=
        abs ((ToNumber y2 - ToNumber y1) * x - (ToNumber x2 - ToNumber x1) * y
             + ToNumber x2 * ToNumber y1 - ToNumber y2 * ToNumber x1)
        / lineLength in
      distToLine <=? radius
  | Path _ _ _ _ => false
  end.

(** The callback of [drawings.filter] in [erase]: the drawing as the callback
    leaves it (a path has its [path] field reassigned) and the callback's
    result. *)
Definition erase_visit (x y eraseRadius : float) (drawing : Shape)
  : Shape * bool :=
  match drawing with
  | Path pts c w r =>
      let pts' :=
        filter (fun point =>
                  let dist :=
                    sqrt ((ToNumber (px point) - x) * (ToNumber (px point) - x)
                          + (ToNumber (py point) - y) * (ToNumber (py point) - y))
                  in
                  eraseRadius <? dist) pts in
      (Path pts' c w r, (1 <? length pts')%nat)
  | _ => (drawing, negb (isPointInShape x y drawing eraseRadius))
  end.

(** [erase(x, y)] up to its last statement, [redrawCanvas()]: what the caller
    does after the call happens only if that statement returns. *)
Definition erase (x y : float) (s : Canvas) : Canvas :=
  let eraseRadius := strokeWidth s * 3 in
  set_drawings
    (map fst (filter snd (map (erase_visit x y eraseRadius) (drawings s))))
    s.

(** ** Shape factory *)

(** [createShape()]; [None] is the JavaScript [null]. *)
Definition createShape (s : Canvas) : option Shape :=
  let width := abs (currentX s - startX s) in
  let height := abs (currentY s - startY s) in
  if (width <? 5) && (height <? 5) then None
  else
    let x := Math_min (startX s) (currentX s) in
    let y := Math_min (startY s) (currentY s) in
    match currentTool s with
    | Tool.rectangle =>
        Some (Rectangle x y width height
                (strokeColor s) (strokeWidth s) (fillColor s) (roughness s))
    | Tool.circle =>
        let radius := sqrt (width * width + height * height) / 2 in
        Some (Circle (startX s) (startY s) radius
                (strokeColor s) (strokeWidth s) (fillColor s) (roughness s))
    | Tool.line =>
        Some (Line (startX s) (startY s) (currentX s) (currentY s)
                (strokeColor s) (strokeWidth s) (roughness s))
    | _ => None
    end.

(** ** History *)

(** [stack.push(x); if (stack.length > 50) stack.shift();] *)
Definition push50 (stack : list json) (x : json) : list json :=
  let pushed := stack ++ [x] in
  if (50 <? length pushed)%nat then tl pushed else pushed.

(** [saveState()] *)
Definition saveState (s : Canvas) : Canvas :=
  set_undoStack (push50 (undoStack s) (JSON_stringify (drawings s))) s.

(** [clearRedoStack()] *)
Definition clearRedoStack (s : Canvas) : Canvas := set_redoStack [] s.

(** [drawings = JSON.parse(text)] for the text of a shape list; any other
    text is given no effect. *)
Definition restore (text : json) (s : Canvas) : Canvas :=
  match JSON_parse text with
  | Some ds => set_drawings ds s
  | None => s
  end.

(** [undo()]; the closing [redrawCanvas()] has nothing after it. *)
Definition undo (s : Canvas) : Canvas :=
  match undoStack s with
  | [] => s
  | _ :: _ =>
      let s1 := set_redoStack (redoStack s ++ [JSON_stringify (drawings s)]) s in
      let previousState := last (undoStack s1) (JArr []) in
      let s2 := set_undoStack (removelast (undoStack s1)) s1 in
      restore previousState s2
  end.

(** [redo()]; the closing [redrawCanvas()] has nothing after it. *)
Definition redo (s : Canvas) : Canvas :=
  match redoStack s with
  | [] => s
  | _ :: _ =>
      let s1 := set_undoStack (undoStack s ++ [JSON_stringify (drawings s)]) s in
      let nextState := last (redoStack s1) (JArr []) in
      let s2 := set_redoStack (removelast (redoStack s1)) s1 in
      restore nextState s2
  end.

(** [clearDrawing()]: [clearRedoStack()] comes after [redrawCanvas()]. *)
Definition clearDrawing (s : Canvas) : Canvas :=
  let s1 := set_drawings [] (saveState s) in
  if redrawCanvas s1 then clearRedoStack s1 else s1.

(** ** Tool state *)

(** [selectTool(tool)] *)
Definition selectTool (tool : Tool.t) (s : Canvas) : Canvas :=
  set_currentTool tool s.

(** [selectColor(color)] *)
Definition selectColor (color : string) (s : Canvas) : Canvas :=
  set_strokeColor color s.

(** ** Gesture handlers *)

(** [startDrawing(e)], [pos] being the position computed from [e].  In the
    eraser branch [saveState()] comes after [erase], which redraws. *)
Definition startDrawing (pos : Pos) (s : Canvas) : Canvas :=
  let s1 := set_isDrawing true s in
  let s2 := set_current (pos_x pos) (pos_y pos)
              (set_start (pos_x pos) (pos_y pos) s1) in
  match currentTool s2 with
  | Tool.pen => saveState (set_currentPath [point_at pos] s2)
  | Tool.eraser =>
      let s3 := erase (pos_x pos) (pos_y pos) s2 in
      if redrawCanvas s3 then saveState s3 else s3
  | _ => saveState s2
  end.

(** [draw(e)]: in each branch the assignments come before the redraw, and
    only drawing comes after it. *)
Definition draw (pos : Pos) (s : Canvas) : Canvas :=
  if negb (isDrawing s) then s
  else
    let s1 := set_current (pos_x pos) (pos_y pos) s in
    match currentTool s1 with
    | Tool.pen => set_currentPath (currentPath s1 ++ [point_at pos]) s1
    | Tool.eraser => erase (pos_x pos) (pos_y pos) s1
    | _ => s1
    end.

(** [stopDrawing(e)]; the handler does not read the position of [e], and
    [clearRedoStack()] comes after [redrawCanvas()]. *)
Definition stopDrawing (s : Canvas) : Canvas :=
  if negb (isDrawing s) then s
  else
    let s1 := set_isDrawing false s in
    let s2 :=
      match currentTool s1 with
      | Tool.pen =>
          if (1 <? length (currentPath s1))%nat then
            set_drawings
              (drawings s1 ++
                 [Path (currentPath s1) (strokeColor s1) (strokeWidth s1)
                    (roughness s1)]) s1
          else s1
      | Tool.eraser => s1
      | _ =>
          match createShape s1 with
          | Some shape => set_drawings (drawings s1 ++ [shape]) s1
          | None => s1
          end
      end in
    let s3 := set_currentPath [] s2 in
    if redrawCanvas s3 then clearRedoStack s3 else s3.

(** One gesture: pointer-down at [down], the move samples [moves] in order,
    pointer-up (or the pointer leaving the canvas, which runs the same
    handler). *)
Definition drag (down : Pos) (moves : list Pos) (s : Canvas) : Canvas :=
  fold_left (fun st pos => draw pos st) moves (startDrawing down s).

Definition gesture (down : Pos) (moves : list Pos) (s : Canvas) : Canvas :=
  stopDrawing (drag down moves s).

(** ** Session boundary *)

(** The object handed over by [saveDrawing]; a field that may be missing on
    the way in is an [option]. *)
Record DrawingData : Type := mkDrawingData {
  dd_drawings : option (list Shape);
  dd_width : float;
  dd_height : float;
  dd_timestamp : float
}.

(** [saveDrawing()]: the detail of the [save] event at the moment it is
    dispatched; [now] is the value of [Date.now()].  The [drawings] field is
    the array of the component itself, not a copy of it. *)
Definition saveDrawing (now : float) (s : Canvas) : DrawingData :=
  mkDrawingData (Some (drawings s)) (canvas_width s) (canvas_height s) now.

(** [loadDrawing(drawingData)]; [None] is [null] / [undefined].  An empty
    array is truthy, so an empty shape list is loaded like any other.  The
    closing [redrawCanvas()] has nothing after it. *)
Definition loadDrawing (drawingData : option DrawingData) (s : Canvas)
  : Canvas :=
  match drawingData with
  | Some d =>
      match dd_drawings d with
      | Some ds => set_drawings ds s
      | None => s
      end
  | None => s
  end.

(** The [onMount] callback, for the props [width], [height] and
    [initialDrawing].  [canvas] tells whether the canvas element exists when
    the component is mounted: the element is inside the modal, which renders
    its content only while [open] is true, and the callback does nothing
    when [canvas] is undefined. *)
Definition onMount (canvas : bool) (width height : float)
  (initialDrawing : option DrawingData) : Canvas :=
  if canvas then
    let s := set_canvas width height initial in
    match initialDrawing with
    | Some d => loadDrawing (Some d) s
    | None => s
    end
  else initial.

(** ** Operations of a session *)

Inductive Op : Type :=
| OpGesture (down : Pos) (moves : list Pos)
| OpUndo
| OpRedo
| OpClear
| OpSelectTool (tool : Tool.t)
| OpSelectColor (color : string)
| OpStrokeWidth (w : float)
| OpRoughness (r : float).

Definition step (o : Op) (s : Canvas) : Canvas :=
  match o with
  | OpGesture down moves => gesture down moves s
  | OpUndo => undo s
  | OpRedo => redo s
  | OpClear => clearDrawing s
  | OpSelectTool tool => selectTool tool s
  | OpSelectColor color => selectColor color s
  | OpStrokeWidth w => set_strokeWidth w s
  | OpRoughness r => set_roughness r s
  end.

Definition run (ops : list Op) (s : Canvas) : Canvas :=
  fold_left (fun st o => step o st) ops s.

(** ** Vocabulary of the specification *)

(** The tools that go through the shape factory. *)
Definition is_shape_tool (tool : Tool.t) : bool :=
  match tool with
  | Tool.rectangle | Tool.circle | Tool.line => true
  | Tool.pen | Tool.eraser => false
  end.

(** The threshold test of the shape factory for a gesture from [down] to
    [up]: both extents, as the factory computes them, are below 5. *)
Definition under_threshold (down up : Pos) : bool :=
  (abs (pos_x up - pos_x down) <? 5) && (abs (pos_y up - pos_y down) <? 5).

(** The condition of the specification on the same gesture, on the numbers
    the coordinates stand for: |dx| < 5 and |dy| < 5. *)
Definition within_5px (down up : Pos) : Prop :=
  (Qabs (exact (pos_x up) - exact (pos_x down)) < 5)%Q /\
  (Qabs (exact (pos_y up) - exact (pos_y down)) < 5)%Q.

(** One committing interaction: a tool is selected and a gesture made. *)
Record Stroke : Type := mkStroke {
  c_tool : Tool.t;
  c_down : Pos;
  c_moves : list Pos
}.

Definition stroke_ops (c : Stroke) : list Op :=
  [OpSelectTool (c_tool c); OpGesture (c_down c) (c_moves c)].

(** The gesture commits a shape: a pen stroke with at least one move sample,
    or a shape-tool gesture that does not pass the threshold test. *)
Definition committing (c : Stroke) : Prop :=
  match c_tool c with
  | Tool.pen => c_moves c <> []
  | Tool.eraser => False
  | _ => under_threshold (c_down c) (last (c_moves c) (c_down c)) = false
  end.

(** The undo stack after [n] commits: the snapshots taken at the start of
    the last (at most 50) of them, i.e. the first [k] shapes of the list for
    the [k] from [n - 50] up to [n - 1]. *)
Definition recent_snapshots (n : nat) (ds : list Shape) : list json :=
  map (fun k => JSON_stringify (firstn k ds)) (seq (n - 50) (Nat.min n 50)).

(** The distance from a path point to (x,y) as [erase] computes it. *)
Definition dist (point : Point) (x y : float) : float :=
  sqrt ((ToNumber (px point) - x) * (ToNumber (px point) - x)
        + (ToNumber (py point) - y) * (ToNumber (py point) - y)).

(** The points of a path whose computed distance to (x,y) is greater than
    [r], in the order of the path. *)
Definition far_points (x y r : float) (pts : list Point) : list Point :=
  filter (fun p => r <? dist p x y) pts.

(** The square of the Euclidean distance between the points that (a,b) and
    (x,y) stand for. *)
Definition sq_distance (a b x y : float) : Q :=
  ((exact a - exact x) * (exact a - exact x)
   + (exact b - exact y) * (exact b - exact y))%Q.


(** The quotient the hit test of a line compares with the radius. *)
Definition distToLine (x1 y1 x2 y2 x y : float) : float :=
  abs ((y2 - y1) * x - (x2 - x1) * y + x2 * y1 - y2 * x1)
  / sqrt ((x2 - x1) * (x2 - x1) + (y2 - y1) * (y2 - y1)).

(** What [JSON.parse] reads back from what [JSON.stringify] printed. *)
Definition reread_value (v : value) : value :=
  match v with
  | Num f => if is_finite f then Num (if f =? 0 then 0 else f) else Null
  | Null => Null
  end.

Definition reread_point (p : Point) : Point :=
  mkPoint (reread_value (px p)) (reread_value (py p)).

Definition reread_shape (sh : Shape) : Shape :=
  match sh with
  | Path pts c w r =>
      Path (map reread_point pts) c (reread_value w) (reread_value r)
  | Rectangle x y w h c sw f r =>
      Rectangle (reread_value x) (reread_value y) (reread_value w)
        (reread_value h) c (reread_value sw) f (reread_value r)
  | Circle x y rad c sw f r =>
      Circle (reread_value x) (reread_value y) (reread_value rad) c
        (reread_value sw) f (reread_value r)
  | Line x1 y1 x2 y2 c sw r =>
      Line (reread_value x1) (reread_value y1) (reread_value x2)
        (reread_value y2) c (reread_value sw) (reread_value r)
  end.

Definition reread (ds : list Shape) : list Shape := map reread_shape ds.

(** A shape list that is read back as it was printed. *)
Definition representable (ds : list Shape) : Prop :=
  JSON_parse (JSON_stringify ds) = Some ds.

(** A number field that holds a finite number other than -0, or [null]. *)
Definition plain (v : value) : Prop :=
  match v with
  | Num f => is_finite f = true /\ ((f =? 0) = false \/ f = 0)
  | Null => True
  end.

Definition plain_point (p : Point) : Prop := plain (px p) /\ plain (py p).

Definition plain_shape (sh : Shape) : Prop :=
  match sh with
  | Path pts _ w r => Forall plain_point pts /\ plain w /\ plain r
  | Rectangle x y w h _ sw _ r =>
      plain x /\ plain y /\ plain w /\ plain h /\ plain sw /\ plain r
  | Circle x y rad _ sw _ r =>
      plain x /\ plain y /\ plain rad /\ plain sw /\ plain r
  | Line x1 y1 x2 y2 _ sw r =>
      plain x1 /\ plain y1 /\ plain x2 /\ plain y2 /\ plain sw /\ plain r
  end.

(** ** Sample sessions *)

(** The decimal literals 0.1, 0.3, 0.7, 5.1 and 6.7 as JavaScript reads
    them: the nearest binary64 numbers. *)
Definition n0_1 : float := 0x1.999999999999ap-4.
Definition n0_3 : float := 0x1.3333333333333p-2.
Definition n0_7 : float := 0x1.6666666666666p-1.
Definition n5_1 : float := 0x1.4666666666666p+2.
Definition n6_7 : float := 0x1.acccccccccccdp+2.

(** A component mounted at 800 x 600 with its canvas element in place. *)
Definition mounted : Canvas := onMount true 800 600 None.

(** The component as the editor mounts it: the modal is closed, so there
    is no canvas element yet. *)
Definition mounted_closed : Canvas := onMount false 800 600 None.

(** A pen stroke from (0,0) to (10,10). *)
Definition stroke_A : Op := OpGesture (mkPos 0 0) [mkPos 10 10].

(** A pen stroke from (20,20) to (30,30). *)
Definition stroke_B : Op := OpGesture (mkPos 20 20) [mkPos 30 30].

(** A mounted canvas after one pen stroke from (0,0) to (10,10). *)
Definition one_stroke : Canvas :=
  gesture (mkPos 0 0) [mkPos 10 10] mounted.

(** A snapshot of an empty 400 x 300 drawing. *)
Definition small_snapshot : DrawingData := mkDrawingData (Some []) 400 300 0.

(** A mounted canvas with the rectangle tool selected. *)
Definition rectangle_ready : Canvas := selectTool Tool.rectangle mounted.

(** A rectangle drawn from (0,0) to (10,10), then the eraser selected. *)
Definition rectangle_then_eraser : Canvas :=
  selectTool Tool.eraser
    (gesture (mkPos 0 0) [mkPos 10 10] rectangle_ready).

(** A pen stroke through (0,0), (50,0) and (100,0) on a fresh canvas. *)
Definition three_point_stroke : Canvas :=
  gesture (mkPos 0 0) [mkPos 50 0; mkPos 100 0] mounted.

(** A pen stroke through (0.3,6.7), (100,100) and (200,200). *)
Definition slanted_stroke : Canvas :=
  gesture (mkPos n0_3 n6_7) [mkPos 100 100; mkPos 200 200] mounted.

(** Fifty pen strokes, an undo, one more stroke and a redo. *)
Definition fifty_strokes_undo_stroke_redo : list Op :=
  repeat stroke_A 50 ++ [OpUndo; stroke_B; OpRedo].

(** ** Pointer positions *)

(** The result of [canvas.getBoundingClientRect()]: the box of the canvas
    as displayed. *)
Record DOMRect : Type := mkDOMRect {
  rect_left : float;
  rect_top : float;
  rect_width : float;
  rect_height : float
}.

(** [getMousePos(e)], for the [clientX] and [clientY] of [e]. *)
Definition getMousePos (rect : DOMRect) (clientX clientY : float) (s : Canvas)
  : Pos :=
  let scaleX := canvas_width s / rect_width rect in
  let scaleY := canvas_height s / rect_height rect in
  mkPos ((clientX - rect_left rect) * scaleX)
        ((clientY - rect_top rect) * scaleY).

(** [getTouchPos(e)], for the list [e.touches] of [(clientX, clientY)]
    pairs; [None] is the TypeError of reading [e.touches[0].clientX] when
    there is no touch. *)
Definition getTouchPos (rect : DOMRect) (touches : list (float * float))
  (s : Canvas) : option Pos :=
  let scaleX := canvas_width s / rect_width rect in
  let scaleY := canvas_height s / rect_height rect in
  match touches with
  | [] => None
  | (clientX, clientY) :: _ =>
      Some (mkPos ((clientX - rect_left rect) * scaleX)
                  ((clientY - rect_top rect) * scaleY))
  end.

(** ** The drawings of a note ([notesStore.js], [MainEditor.svelte])

    The store holds the list of notes.  [Date.now()] is read once for every
    note the callback of [allNotes.map] rewrites: [now n] is the [n]-th
    reading.  [saveToStorage()] only schedules the write of the store to
    local storage and is not represented. *)

Record Note : Type := mkNote {
  note_id : string;
  note_title : string;
  note_content : string;
  note_tags : list string;
  note_createdAt : float;
  note_updatedAt : float;
  note_isPinned : bool;
  note_drawings : option (list DrawingData)
}.

(** [note.drawings || []] *)
Definition drawings_or_empty (note : Note) : list DrawingData :=
  match note_drawings note with
  | Some ds => ds
  | None => []
  end.

(** [{ ...note, drawings, updatedAt }] *)
Definition with_drawings (ds : list DrawingData) (updatedAt : float)
  (note : Note) : Note :=
  mkNote (note_id note) (note_title note) (note_content note)
    (note_tags note) (note_createdAt note) updatedAt (note_isPinned note)
    (Some ds).

(** [notesActions.addDrawing(noteId, drawingData)]: the new value of the
    store. *)
Fixpoint addDrawing (noteId : string) (drawingData : DrawingData)
  (now : nat -> float) (allNotes : list Note) : list Note :=
  match allNotes with
  | [] => []
  | note :: rest =>
      if String.eqb (note_id note) noteId then
        with_drawings (drawings_or_empty note ++ [drawingData]) (now 0%nat)
          note
        :: addDrawing noteId drawingData (fun n => now (S n)) rest
      else note :: addDrawing noteId drawingData now rest
  end.

(** [drawings.splice(drawingIndex, 1)] for an array index. *)
Definition splice1 {A : Type} (drawingIndex : nat) (l : list A) : list A :=
  firstn drawingIndex l ++ skipn (S drawingIndex) l.

(** [notesActions.removeDrawing(noteId, drawingIndex)]: the new value of the
    store. *)
Fixpoint removeDrawing (noteId : string) (drawingIndex : nat)
  (now : nat -> float) (allNotes : list Note) : list Note :=
  match allNotes with
  | [] => []
  | note :: rest =>
      if String.eqb (note_id note) noteId then
        with_drawings (splice1 drawingIndex (drawings_or_empty note))
          (now 0%nat) note
        :: removeDrawing noteId drawingIndex (fun n => now (S n)) rest
      else note :: removeDrawing noteId drawingIndex now rest
  end.

(** [handleDrawingSave(event)] of the editor, on the store and its
    [showDrawing] flag; [note] is the current note, if any, and
    [drawingData] the detail of the [save] event. *)
Definition handleDrawingSave (note : option Note) (drawingData : DrawingData)
  (now : nat -> float) (allNotes : list Note) (showDrawing : bool)
  : list Note * bool :=
  match note with
  | Some n => (addDrawing (note_id n) drawingData now allNotes, false)
  | None => (allNotes, showDrawing)
  end.

(** ** More vocabulary *)

(** The shape list after one erase sample at (x,y) with radius [r]. *)
Definition erased (x y r : float) (ds : list Shape) : list Shape :=
  map fst (filter snd (map (erase_visit x y r) ds)).

(** Whether a shape is a freehand path. *)
Definition is_path (sh : Shape) : bool :=
  match sh with
  | Path _ _ _ _ => true
  | _ => false
  end.

(** A freehand path as a gesture commits it has at least two points. *)
Definition well_formed (sh : Shape) : Prop :=
  match sh with
  | Path pts _ _ _ => (2 <= length pts)%nat
  | _ => True
  end.

(** A text that [JSON.stringify] made of a shape list whose shapes all
    satisfy [P]. *)
Definition snapshot_of (P : Shape -> Prop) (text : json) : Prop :=
  exists ds, text = JSON_stringify ds /\ Forall P ds.

(** A note without drawings and the store that holds it. *)
Definition sample_note : Note :=
  mkNote "n1" "Title" "" [] 0 0 false None.

(** The shape list and both history stacks hold shapes satisfying [P]
    only. *)
Definition history_ok (P : Shape -> Prop) (s : Canvas) : Prop :=
  Forall P (drawings s) /\
  Forall (snapshot_of P) (undoStack s) /\
  Forall (snapshot_of P) (redoStack s).

(** ** Integer coordinates *)

(** The binary64 number of a natural number (every natural number below
    2^53 is one). *)
Definition pix (n : nat) : float := of_uint63 (Uint63.of_Z (Z.of_nat n)).

(** [f] holds of every natural number below [n]. *)
Definition below (n : nat) (f : nat -> bool) : bool := forallb f (seq 0 n).

(** On integers: both |c - a| < 5 and |d - b| < 5. *)
Definition within_5px_int (a b c d : nat) : bool :=
  ((Z.abs (Z.of_nat c - Z.of_nat a) <? 5)
   && (Z.abs (Z.of_nat d - Z.of_nat b) <? 5))%Z.

(** On integers: (a,b) is farther than [r] from (x,y). *)
Definition farther_int (a b x y r : nat) : bool :=
  (Z.of_nat r * Z.of_nat r
   <? (Z.of_nat a - Z.of_nat x) * (Z.of_nat a - Z.of_nat x)
      + (Z.of_nat b - Z.of_nat y) * (Z.of_nat b - Z.of_nat y))%Z.

(** On integers: (x1,y1) and (x2,y2) are distinct and the perpendicular
    distance from (x,y) to the infinite line through them is at most [r]. *)
Definition near_line_int (x1 y1 x2 y2 x y r : nat) : bool :=
  (let a := (Z.of_nat y2 - Z.of_nat y1) * Z.of_nat x
            - (Z.of_nat x2 - Z.of_nat x1) * Z.of_nat y
            + Z.of_nat x2 * Z.of_nat y1 - Z.of_nat y2 * Z.of_nat x1 in
   let d := (Z.of_nat x2 - Z.of_nat x1) * (Z.of_nat x2 - Z.of_nat x1)
            + (Z.of_nat y2 - Z.of_nat y1) * (Z.of_nat y2 - Z.of_nat y1) in
   negb (d =? 0) && (a * a <=? Z.of_nat r * Z.of_nat r * d))%Z.

(** * Properties *)

(** ** Snapshots as they are read back *)

Lemma number_roundtrip (v : value) :
  number_of_json (json_of_number v) = Some (reread_value v).
Proof.
  destruct v as [f |]; [| reflexivity].
  unfold json_of_number, reread_value. destruct (is_finite f); reflexivity.
Qed.

Lemma point_roundtrip (pts : list Point) :
  traverse point_of_json (map json_of_point pts) = Some (map reread_point pts).
Proof.
  induction pts as [| [x y] pts IH]; [reflexivity |].
  cbn [map traverse]. rewrite IH.
  unfold json_of_point, point_of_json, num_field.
  cbn [field String.eqb Ascii.eqb Bool.eqb px py bind].
  rewrite !number_roundtrip. reflexivity.
Qed.

Lemma shape_roundtrip (sh : Shape) :
  shape_of_json (json_of_shape sh) = Some (reread_shape sh).
Proof.
  destruct sh; unfold json_of_shape, shape_of_json, num_field, str_field,
    arr_field;
    cbn [field String.eqb Ascii.eqb Bool.eqb bind];
    rewrite !number_roundtrip; cbn [bind String.eqb Ascii.eqb Bool.eqb];
    rewrite ?point_roundtrip; reflexivity.
Qed.

Lemma JSON_roundtrip (ds : list Shape) :
  JSON_parse (JSON_stringify ds) = Some (reread ds).
Proof.
  unfold JSON_parse, JSON_stringify, reread.
  induction ds as [| sh ds IH]; [reflexivity |].
  cbn [map traverse]. rewrite shape_roundtrip, IH. reflexivity.
Qed.

Lemma reread_value_idem (v : value) :
  reread_value (reread_value v) = reread_value v.
Proof.
  destruct v as [f |]; [| reflexivity].
  change (reread_value f)
    with (if is_finite f then Num (if f =? 0 then 0 else f) else Null).
  destruct (is_finite f) eqn:F; [| reflexivity].
  destruct (f =? 0) eqn:Z; [reflexivity |].
  unfold reread_value. rewrite F, Z. reflexivity.
Qed.

Lemma json_of_reread_value (v : value) :
  json_of_number (reread_value v) = json_of_number v.
Proof.
  destruct v as [f |]; [| reflexivity]. unfold reread_value.
  destruct (is_finite f) eqn:F; [| unfold json_of_number; rewrite F; reflexivity].
  destruct (f =? 0) eqn:Z.
  - unfold json_of_number. rewrite F, Z. reflexivity.
  - unfold json_of_number. rewrite F, Z. reflexivity.
Qed.

Lemma json_of_reread_shape (sh : Shape) :
  json_of_shape (reread_shape sh) = json_of_shape sh.
Proof.
  destruct sh; unfold reread_shape, json_of_shape;
    rewrite !json_of_reread_value; try reflexivity.
  rewrite map_map.
  rewrite (map_ext (fun p => json_of_point (reread_point p)) json_of_point);
    [reflexivity |].
  intros [x y]. unfold reread_point, json_of_point. cbn [px py].
  rewrite !json_of_reread_value. reflexivity.
Qed.

(** Printing what has been read back gives the text it was read from. *)
Lemma stringify_reread (ds : list Shape) :
  JSON_stringify (reread ds) = JSON_stringify ds.
Proof.
  unfold JSON_stringify, reread. rewrite map_map. f_equal.
  apply map_ext, json_of_reread_shape.
Qed.

Lemma representable_reread (ds : list Shape) :
  representable ds <-> reread ds = ds.
Proof.
  unfold representable. rewrite JSON_roundtrip.
  split; [intros H; injection H; trivial | intros ->; reflexivity].
Qed.

Lemma reread_representable (ds : list Shape) : representable (reread ds).
Proof.
  unfold representable. rewrite stringify_reread. apply JSON_roundtrip.
Qed.

Lemma representable_firstn (k : nat) (ds : list Shape) :
  representable ds -> representable (firstn k ds).
Proof.
  rewrite !representable_reread. unfold reread. intros H.
  rewrite <- firstn_map, H. reflexivity.
Qed.

Lemma restore_stringify (ds : list Shape) (s : Canvas) :
  restore (JSON_stringify ds) s = set_drawings (reread ds) s.
Proof. unfold restore. rewrite JSON_roundtrip. reflexivity. Qed.

Lemma restore_representable (ds : list Shape) (s : Canvas) :
  representable ds -> restore (JSON_stringify ds) s = set_drawings ds s.
Proof. intros H. unfold restore. rewrite H. reflexivity. Qed.

Lemma plain_reread_value (v : value) : plain v -> reread_value v = v.
Proof.
  destruct v as [f |]; [| reflexivity]. intros (F & [Z | ->]).
  - unfold reread_value. rewrite F, Z. reflexivity.
  - reflexivity.
Qed.

Lemma plain_reread_shape (sh : Shape) : plain_shape sh -> reread_shape sh = sh.
Proof.
  destruct sh; cbn [plain_shape reread_shape]; intros H;
    repeat match goal with H : _ /\ _ |- _ => destruct H end;
    rewrite ?plain_reread_value by assumption; try reflexivity.
  f_equal. match goal with H : Forall plain_point _ |- _ => induction H as [| [x y] l (Hx & Hy) _ IH] end;
    [reflexivity |].
  cbn [map]. rewrite IH. unfold reread_point. cbn [px py] in *.
  rewrite !plain_reread_value by assumption. reflexivity.
Qed.

(** ** The capped push of [saveState] *)

Lemma undoStack_saveState (s : Canvas) :
  undoStack (saveState s) = push50 (undoStack s) (JSON_stringify (drawings s)).
Proof. reflexivity. Qed.

Lemma push50_snoc (u : list json) (x : json) :
  exists v, push50 u x = v ++ [x].
Proof.
  unfold push50. destruct (50 <? length (u ++ [x]))%nat eqn:E.
  - destruct u as [| a u]; [discriminate E |]. exists u. reflexivity.
  - exists u. reflexivity.
Qed.

Lemma push50_length (u : list json) (x : json) :
  (length u <= 50)%nat ->
  length (push50 u x) = Nat.min (S (length u)) 50.
Proof.
  intros H. unfold push50. rewrite length_app. cbn [length].
  destruct (50 <? length u + 1)%nat eqn:E.
  - apply Nat.ltb_lt in E. destruct u; cbn [tl length app] in *; [lia |].
    rewrite length_app. cbn [length]. lia.
  - apply Nat.ltb_ge in E. rewrite length_app. cbn [length]. lia.
Qed.

Lemma push50_full (u : list json) (x : json) :
  length u = 50%nat -> push50 u x = tl u ++ [x].
Proof.
  intros H. unfold push50. rewrite length_app. cbn [length].
  replace (50 <? length u + 1)%nat with true
    by (symmetry; apply Nat.ltb_lt; lia).
  destruct u; [discriminate H | reflexivity].
Qed.

Lemma push50_below (u : list json) (x : json) :
  (length u < 50)%nat -> push50 u x = u ++ [x].
Proof.
  intros H. unfold push50. rewrite length_app. cbn [length].
  replace (50 <? length u + 1)%nat with false
    by (symmetry; apply Nat.ltb_ge; lia).
  reflexivity.
Qed.

(** ** What a handler leaves alone *)

Lemma drawings_erase (x y : float) (s : Canvas) :
  drawings (erase x y s) =
  map fst (filter snd (map (erase_visit x y (strokeWidth s * 3)) (drawings s))).
Proof. reflexivity. Qed.

Lemma draw_frame (pos : Pos) (s : Canvas) :
  undoStack (draw pos s) = undoStack s /\
  redoStack (draw pos s) = redoStack s /\
  isDrawing (draw pos s) = isDrawing s /\
  currentTool (draw pos s) = currentTool s /\
  strokeColor (draw pos s) = strokeColor s /\
  strokeWidth (draw pos s) = strokeWidth s /\
  fillColor (draw pos s) = fillColor s /\
  roughness (draw pos s) = roughness s /\
  startX (draw pos s) = startX s /\
  startY (draw pos s) = startY s /\
  ctx (draw pos s) = ctx s.
Proof.
  unfold draw. destruct (isDrawing s) eqn:E; cbn [negb].
  - cbn. destruct (currentTool s) eqn:T; cbn; rewrite ?E, ?T;
      repeat split; reflexivity.
  - rewrite E. repeat split; reflexivity.
Qed.

Lemma moves_frame (moves : list Pos) (s : Canvas) :
  let s' := fold_left (fun st pos => draw pos st) moves s in
  undoStack s' = undoStack s /\
  redoStack s' = redoStack s /\
  isDrawing s' = isDrawing s /\
  currentTool s' = currentTool s /\
  strokeColor s' = strokeColor s /\
  strokeWidth s' = strokeWidth s /\
  fillColor s' = fillColor s /\
  roughness s' = roughness s /\
  startX s' = startX s /\
  startY s' = startY s /\
  ctx s' = ctx s.
Proof.
  revert s. induction moves as [| pos moves IH]; intros s; cbn [fold_left].
  - repeat split; reflexivity.
  - specialize (IH (draw pos s)). cbn zeta in IH.
    destruct (draw_frame pos s)
      as (-> & -> & -> & -> & -> & -> & -> & -> & -> & -> & ->) in IH.
    exact IH.
Qed.

Lemma startDrawing_frame (down : Pos) (s : Canvas) :
  let s' := startDrawing down s in
  isDrawing s' = true /\
  redoStack s' = redoStack s /\
  currentTool s' = currentTool s /\
  strokeColor s' = strokeColor s /\
  strokeWidth s' = strokeWidth s /\
  fillColor s' = fillColor s /\
  roughness s' = roughness s /\
  startX s' = pos_x down /\
  startY s' = pos_y down /\
  ctx s' = ctx s.
Proof.
  unfold startDrawing, redrawCanvas. cbn.
  destruct (currentTool s) eqn:T; cbn; rewrite ?T;
    try (repeat split; reflexivity).
  destruct (ctx s) eqn:C; cbn; rewrite ?T, ?C; repeat split; reflexivity.
Qed.

Lemma drag_frame (down : Pos) (moves : list Pos) (s : Canvas) :
  let s' := drag down moves s in
  undoStack s' = undoStack (startDrawing down s) /\
  redoStack s' = redoStack s /\
  isDrawing s' = true /\
  currentTool s' = currentTool s /\
  strokeColor s' = strokeColor s /\
  strokeWidth s' = strokeWidth s /\
  fillColor s' = fillColor s /\
  roughness s' = roughness s /\
  startX s' = pos_x down /\
  startY s' = pos_y down /\
  ctx s' = ctx s.
Proof.
  unfold drag.
  destruct (moves_frame moves (startDrawing down s))
    as (-> & -> & -> & -> & -> & -> & -> & -> & -> & -> & ->).
  destruct (startDrawing_frame down s)
    as (-> & -> & -> & -> & -> & -> & -> & -> & -> & ->).
  repeat split; reflexivity.
Qed.

(** The end of a gesture empties the redo stack only if the redraw that
    comes before returns. *)
Lemma stopDrawing_stacks (s : Canvas) :
  isDrawing s = true ->
  undoStack (stopDrawing s) = undoStack s /\
  redoStack (stopDrawing s) = (if ctx s then [] else redoStack s) /\
  ctx (stopDrawing s) = ctx s.
Proof.
  intros H. unfold stopDrawing, redrawCanvas. rewrite H.
  cbn -[Nat.ltb createShape].
  destruct (currentTool s); cbn -[Nat.ltb createShape];
    repeat match goal with
           | |- context [(?a <? ?b)%nat] => destruct (a <? b)%nat
           | |- context [match createShape ?t with Some _ => _ | None => _ end] =>
               destruct (createShape t)
           end; cbn;
    destruct (ctx s) eqn:C; cbn; rewrite ?C; repeat split; reflexivity.
Qed.

Lemma gesture_redoStack (down : Pos) (moves : list Pos) (s : Canvas) :
  ctx s = true -> redoStack (gesture down moves s) = [].
Proof.
  intros C. unfold gesture.
  destruct (drag_frame down moves s)
    as (_ & _ & Hd & _ & _ & _ & _ & _ & _ & _ & Hc).
  destruct (stopDrawing_stacks _ Hd) as (_ & -> & _).
  rewrite Hc, C. reflexivity.
Qed.

Lemma gesture_redoStack_closed (down : Pos) (moves : list Pos) (s : Canvas) :
  ctx s = false -> redoStack (gesture down moves s) = redoStack s.
Proof.
  intros C. unfold gesture.
  destruct (drag_frame down moves s)
    as (_ & Hr & Hd & _ & _ & _ & _ & _ & _ & _ & Hc).
  destruct (stopDrawing_stacks _ Hd) as (_ & -> & _).
  rewrite Hc, C. exact Hr.
Qed.

Lemma gesture_undoStack (down : Pos) (moves : list Pos) (s : Canvas) :
  undoStack (gesture down moves s) = undoStack (startDrawing down s).
Proof.
  unfold gesture.
  destruct (drag_frame down moves s) as (Hu & _ & Hd & _).
  destruct (stopDrawing_stacks _ Hd) as (-> & _). exact Hu.
Qed.

Lemma gesture_ctx (down : Pos) (moves : list Pos) (s : Canvas) :
  ctx (gesture down moves s) = ctx s.
Proof.
  unfold gesture.
  destruct (drag_frame down moves s)
    as (_ & _ & Hd & _ & _ & _ & _ & _ & _ & _ & Hc).
  destruct (stopDrawing_stacks _ Hd) as (_ & _ & ->). exact Hc.
Qed.

Lemma redo_empty (s : Canvas) : redoStack s = [] -> redo s = s.
Proof. intros H. unfold redo. rewrite H. reflexivity. Qed.

(** ** Undo and redo on a non-empty stack *)

Lemma undo_snoc (s : Canvas) (u : list json) (x : json) :
  undoStack s = u ++ [x] ->
  undo s =
  restore x
    (set_undoStack u
       (set_redoStack (redoStack s ++ [JSON_stringify (drawings s)]) s)).
Proof.
  intros H. unfold undo. rewrite H.
  destruct (u ++ [x]) eqn:E; [destruct u; discriminate E |].
  cbn [undoStack set_redoStack].
  rewrite H, <- E, last_last, removelast_last. reflexivity.
Qed.

Lemma redo_snoc (s : Canvas) (r : list json) (x : json) :
  redoStack s = r ++ [x] ->
  redo s =
  restore x
    (set_redoStack r
       (set_undoStack (undoStack s ++ [JSON_stringify (drawings s)]) s)).
Proof.
  intros H. unfold redo. rewrite H.
  destruct (r ++ [x]) eqn:E; [destruct r; discriminate E |].
  cbn [redoStack set_undoStack].
  rewrite H, <- E, last_last, removelast_last. reflexivity.
Qed.

Lemma restore_frame (x : json) (s : Canvas) :
  undoStack (restore x s) = undoStack s /\
  redoStack (restore x s) = redoStack s /\
  currentTool (restore x s) = currentTool s /\
  isDrawing (restore x s) = isDrawing s /\
  ctx (restore x s) = ctx s.
Proof. unfold restore. destruct (JSON_parse x); repeat split; reflexivity. Qed.

Lemma nonempty_snoc {A : Type} (l : list A) :
  l <> [] -> exists u x, l = u ++ [x].
Proof.
  intros H. destruct (exists_last H) as (u & x & ->). eauto.
Qed.


Lemma undo_ctx (s : Canvas) : ctx (undo s) = ctx s.
Proof.
  unfold undo. destruct (undoStack s); [reflexivity |].
  match goal with |- context [restore ?x ?t] =>
    destruct (restore_frame x t) as (_ & _ & _ & _ & ->) end.
  reflexivity.
Qed.

Lemma redo_ctx (s : Canvas) : ctx (redo s) = ctx s.
Proof.
  unfold redo. destruct (redoStack s); [reflexivity |].
  match goal with |- context [restore ?x ?t] =>
    destruct (restore_frame x t) as (_ & _ & _ & _ & ->) end.
  reflexivity.
Qed.

Lemma clearDrawing_ctx (s : Canvas) : ctx (clearDrawing s) = ctx s.
Proof.
  unfold clearDrawing, redrawCanvas. cbn. destruct (ctx s) eqn:C; cbn;
    exact C.
Qed.

Lemma step_ctx (o : Op) (s : Canvas) : ctx (step o s) = ctx s.
Proof.
  destruct o; cbn [step]; try reflexivity.
  - apply gesture_ctx.
  - apply undo_ctx.
  - apply redo_ctx.
  - apply clearDrawing_ctx.
Qed.

Lemma run_ctx (ops : list Op) (s : Canvas) : ctx (run ops s) = ctx s.
Proof.
  revert s. induction ops as [| o ops IH]; intros s; [reflexivity |].
  cbn [run fold_left]. change (ctx (run ops (step o s)) = ctx s).
  rewrite IH. apply step_ctx.
Qed.

Lemma onMount_ctx (canvas : bool) (width height : float)
  (init : option DrawingData) :
  ctx (onMount canvas width height init) = canvas.
Proof.
  destruct canvas; [| reflexivity].
  destruct init as [[[ds |] w h t] |]; reflexivity.
Qed.

Lemma onMount_stacks (canvas : bool) (width height : float)
  (init : option DrawingData) :
  undoStack (onMount canvas width height init) = [] /\
  redoStack (onMount canvas width height init) = [].
Proof.
  destruct canvas; [| split; reflexivity].
  destruct init as [[[ds |] w h t] |]; split; reflexivity.
Qed.


(** ** Undo followed by redo *)

Lemma plain_representable (ds : list Shape) :
  Forall plain_shape ds -> representable ds.
Proof.
  intros H. apply representable_reread. unfold reread.
  induction H as [| sh ds Hsh _ IH]; [reflexivity |].
  cbn [map]. rewrite IH, (plain_reread_shape sh Hsh). reflexivity.
Qed.




(** ** Session boundary *)



(** ** Gestures of the shape tools *)

Lemma last_cons {A : Type} (a : A) (l : list A) (d : A) :
  last (a :: l) d = last l a.
Proof.
  revert a d. induction l as [| b l IH]; intros a d; [reflexivity |].
  change (last (a :: b :: l) d) with (last (b :: l) d).
  rewrite !IH. reflexivity.
Qed.

Lemma moves_shape_tool (moves : list Pos) (s : Canvas) :
  isDrawing s = true ->
  is_shape_tool (currentTool s) = true ->
  let s' := fold_left (fun st pos => draw pos st) moves s in
  drawings s' = drawings s /\
  currentPath s' = currentPath s /\
  currentX s' = pos_x (last moves (mkPos (currentX s) (currentY s))) /\
  currentY s' = pos_y (last moves (mkPos (currentX s) (currentY s))).
Proof.
  revert s. induction moves as [| pos moves IH]; intros s Hd Ht; cbn [fold_left].
  - repeat split; reflexivity.
  - assert (E : draw pos s = set_current (pos_x pos) (pos_y pos) s).
    { unfold draw. rewrite Hd. cbn.
      destruct (currentTool s); try discriminate Ht; reflexivity. }
    rewrite E. specialize (IH (set_current (pos_x pos) (pos_y pos) s) Hd Ht).
    cbn zeta in IH. destruct IH as (-> & -> & -> & ->).
    rewrite last_cons. destruct pos; repeat split; reflexivity.
Qed.

Lemma drag_shape_tool (down : Pos) (moves : list Pos) (s : Canvas) :
  is_shape_tool (currentTool s) = true ->
  drawings (drag down moves s) = drawings s /\
  currentX (drag down moves s) = pos_x (last moves down) /\
  currentY (drag down moves s) = pos_y (last moves down).
Proof.
  intros Ht. unfold drag.
  assert (E : startDrawing down s =
              saveState (set_current (pos_x down) (pos_y down)
                           (set_start (pos_x down) (pos_y down)
                              (set_isDrawing true s)))).
  { unfold startDrawing. cbn.
    destruct (currentTool s); try discriminate Ht; reflexivity. }
  assert (Hd : isDrawing (startDrawing down s) = true)
    by (rewrite E; reflexivity).
  assert (Ht' : is_shape_tool (currentTool (startDrawing down s)) = true)
    by (rewrite E; exact Ht).
  destruct (moves_shape_tool moves (startDrawing down s) Hd Ht')
    as (-> & _ & -> & ->).
  rewrite E. destruct down; repeat split; reflexivity.
Qed.

(** The test of the factory is the threshold test on anchor and end
    point. *)
Lemma createShape_threshold (s : Canvas) :
  createShape s =
  if under_threshold (mkPos (startX s) (startY s))
       (mkPos (currentX s) (currentY s))
  then None
  else
    match currentTool s with
    | Tool.rectangle =>
        Some (Rectangle (Math_min (startX s) (currentX s))
                (Math_min (startY s) (currentY s))
                (abs (currentX s - startX s)) (abs (currentY s - startY s))
                (strokeColor s) (strokeWidth s) (fillColor s) (roughness s))
    | Tool.circle =>
        Some (Circle (startX s) (startY s)
                (sqrt (abs (currentX s - startX s) * abs (currentX s - startX s)
                       + abs (currentY s - startY s)
                         * abs (currentY s - startY s)) / 2)
                (strokeColor s) (strokeWidth s) (fillColor s) (roughness s))
    | Tool.line =>
        Some (Line (startX s) (startY s) (currentX s) (currentY s)
                (strokeColor s) (strokeWidth s) (roughness s))
    | _ => None
    end.
Proof. reflexivity. Qed.

Lemma createShape_small (s : Canvas) :
  under_threshold (mkPos (startX s) (startY s))
    (mkPos (currentX s) (currentY s)) = true ->
  createShape s = None.
Proof. intros H. rewrite createShape_threshold, H. reflexivity. Qed.

Lemma createShape_big (s : Canvas) :
  is_shape_tool (currentTool s) = true ->
  under_threshold (mkPos (startX s) (startY s))
    (mkPos (currentX s) (currentY s)) = false ->
  exists shape, createShape s = Some shape.
Proof.
  intros Ht H. rewrite createShape_threshold, H.
  destruct (currentTool s); try discriminate Ht; eauto.
Qed.

(** What the end of a gesture appends to the shape list. *)
Lemma drawings_stopDrawing (s : Canvas) :
  isDrawing s = true ->
  drawings (stopDrawing s) =
  drawings s ++
  match currentTool s with
  | Tool.pen =>
      if (1 <? length (currentPath s))%nat
      then [Path (currentPath s) (strokeColor s) (strokeWidth s) (roughness s)]
      else []
  | Tool.eraser => []
  | _ => match createShape s with Some shape => [shape] | None => [] end
  end.
Proof.
  intros I. unfold stopDrawing, redrawCanvas. rewrite I.
  cbn -[Nat.ltb createShape].
  change (createShape (set_isDrawing false s)) with (createShape s).
  destruct (currentTool s) eqn:T; cbn -[Nat.ltb createShape]; rewrite ?T;
    repeat match goal with
           | |- context [(?a <? ?b)%nat] => destruct (a <? b)%nat
           | |- context [match createShape s with _ => _ end] =>
               destruct (createShape s)
           end; cbn; destruct (ctx s); cbn; rewrite ?app_nil_r; reflexivity.
Qed.

Lemma stopDrawing_no_shape (s : Canvas) :
  isDrawing s = true ->
  is_shape_tool (currentTool s) = true ->
  createShape s = None ->
  drawings (stopDrawing s) = drawings s.
Proof.
  intros Hd Ht Hn. rewrite (drawings_stopDrawing s Hd), Hn.
  destruct (currentTool s); try discriminate Ht; apply app_nil_r.
Qed.

Lemma drag_anchor (down : Pos) (moves : list Pos) (s : Canvas) :
  is_shape_tool (currentTool s) = true ->
  mkPos (startX (drag down moves s)) (startY (drag down moves s)) = down /\
  mkPos (currentX (drag down moves s)) (currentY (drag down moves s))
  = last moves down.
Proof.
  intros Ht.
  destruct (drag_shape_tool down moves s Ht) as (_ & -> & ->).
  destruct (drag_frame down moves s)
    as (_ & _ & _ & _ & _ & _ & _ & _ & -> & -> & _).
  destruct down, (last moves _); split; reflexivity.
Qed.

Lemma small_gesture_keeps (s : Canvas) (down : Pos) (moves : list Pos) :
  is_shape_tool (currentTool s) = true ->
  under_threshold down (last moves down) = true ->
  createShape (drag down moves s) = None /\
  drawings (gesture down moves s) = drawings s.
Proof.
  intros Ht Hsmall.
  destruct (drag_shape_tool down moves s Ht) as (Hd & _).
  destruct (drag_anchor down moves s Ht) as (Ha & Hb).
  destruct (drag_frame down moves s) as (_ & _ & Hi & Htool & _).
  assert (Hn : createShape (drag down moves s) = None).
  { apply createShape_small. rewrite Ha, Hb. exact Hsmall. }
  split; [exact Hn |].
  unfold gesture. rewrite stopDrawing_no_shape; auto.
  rewrite Htool. exact Ht.
Qed.

(** C7, as stated, fails.  With the rectangle tool, a gesture from (0.1,0)
    to (5.1,0): the end point is less than 5 away from the anchor on both
    axes (the two numbers the x coordinates stand for differ by
    4.9999999999999996...), yet the difference the factory computes is
    exactly 5, the factory returns a rectangle and the gesture commits
    it. *)
Lemma small_gesture_committed :
  let down := mkPos n0_1 0 in
  let up := mkPos n5_1 0 in
  is_shape_tool (currentTool rectangle_ready) = true /\
  within_5px down up /\
  createShape (drag down [up] rectangle_ready) =
    Some (Rectangle n0_1 0 5 0 "#000000" 2 "transparent" 1) /\
  drawings (gesture down [up] rectangle_ready) =
    drawings rectangle_ready ++
    [Rectangle n0_1 0 5 0 "#000000" 2 "transparent" 1] /\
  drawings (gesture down [up] rectangle_ready) <> drawings rectangle_ready.
Proof.
  vm_compute. repeat split; discriminate.
Qed.

(** C7, amended.  A rectangle, circle or line gesture whose end point (the
    last move sample, or the anchor when there is none) passes the test of
    the factory - [Math.abs] of the computed difference is below 5 on both
    axes - gets no shape from the factory, and the end of the gesture leaves
    the shape list as it was. *)
Theorem small_gesture_rejected
  (s : Canvas) (down : Pos) (moves : list Pos) :
  is_shape_tool (currentTool s) = true ->
  (abs (pos_x (last moves down) - pos_x down) <? 5) = true ->
  (abs (pos_y (last moves down) - pos_y down) <? 5) = true ->
  createShape (drag down moves s) = None /\
  drawings (gesture down moves s) = drawings s.
Proof.
  intros Ht Hx Hy. apply small_gesture_keeps; [exact Ht |].
  unfold under_threshold. rewrite Hx, Hy. reflexivity.
Qed.

Lemma small_gesture_rejected_witness :
  createShape (drag (mkPos 10 10) [mkPos 12 13] rectangle_ready) = None /\
  drawings (gesture (mkPos 10 10) [mkPos 12 13] rectangle_ready)
  = drawings rectangle_ready.
Proof.
  apply (small_gesture_rejected rectangle_ready (mkPos 10 10) [mkPos 12 13]);
    vm_compute; reflexivity.
Defined.

(** ** Gestures that commit a shape *)

Lemma moves_pen (moves : list Pos) (s : Canvas) :
  isDrawing s = true ->
  currentTool s = Tool.pen ->
  let s' := fold_left (fun st pos => draw pos st) moves s in
  drawings s' = drawings s /\
  currentPath s' = currentPath s ++ map point_at moves.
Proof.
  revert s. induction moves as [| pos moves IH]; intros s Hd Ht; cbn [fold_left].
  - cbn [map]. rewrite app_nil_r. split; reflexivity.
  - assert (E : draw pos s =
                set_currentPath (currentPath s ++ [point_at pos])
                  (set_current (pos_x pos) (pos_y pos) s)).
    { unfold draw. rewrite Hd. cbn. rewrite Ht. reflexivity. }
    rewrite E.
    specialize (IH (set_currentPath (currentPath s ++ [point_at pos])
                      (set_current (pos_x pos) (pos_y pos) s)) Hd Ht).
    cbn zeta in IH. destruct IH as (-> & ->).
    cbn. rewrite <- app_assoc. split; reflexivity.
Qed.

Lemma startDrawing_pen (down : Pos) (s : Canvas) :
  currentTool s = Tool.pen ->
  startDrawing down s =
  saveState (set_currentPath [point_at down]
               (set_current (pos_x down) (pos_y down)
                  (set_start (pos_x down) (pos_y down)
                     (set_isDrawing true s)))).
Proof. intros Ht. unfold startDrawing. cbn. rewrite Ht. reflexivity. Qed.

Lemma drag_pen (down : Pos) (moves : list Pos) (s : Canvas) :
  currentTool s = Tool.pen ->
  drawings (drag down moves s) = drawings s /\
  currentPath (drag down moves s) = map point_at (down :: moves).
Proof.
  intros Ht.
  destruct (moves_pen moves (startDrawing down s)) as (Hd & Hp);
    [rewrite (startDrawing_pen down s Ht); reflexivity
    | rewrite (startDrawing_pen down s Ht); exact Ht |].
  fold (drag down moves s) in Hd, Hp.
  rewrite Hd, Hp, (startDrawing_pen down s Ht). split; reflexivity.
Qed.

Lemma pen_gesture (down : Pos) (moves : list Pos) (s : Canvas) :
  currentTool s = Tool.pen ->
  moves <> [] ->
  drawings (gesture down moves s) =
  drawings s ++
    [Path (map point_at (down :: moves))
       (strokeColor s) (strokeWidth s) (roughness s)].
Proof.
  intros Ht Hm.
  destruct (drag_pen down moves s Ht) as (Hd & Hp).
  destruct (drag_frame down moves s)
    as (_ & _ & Hi & Htool & Hc & Hw & _ & Hr & _).
  unfold gesture. rewrite (drawings_stopDrawing _ Hi).
  rewrite Htool, Ht, Hp, Hd, Hc, Hw, Hr.
  destruct moves; [congruence | reflexivity].
Qed.

Lemma pen_click (down : Pos) (s : Canvas) :
  currentTool s = Tool.pen ->
  drawings (gesture down [] s) = drawings s.
Proof.
  intros Ht.
  destruct (drag_pen down [] s Ht) as (Hd & Hp).
  destruct (drag_frame down [] s) as (_ & _ & Hi & Htool & _).
  unfold gesture. rewrite (drawings_stopDrawing _ Hi).
  rewrite Htool, Ht, Hp, Hd. apply app_nil_r.
Qed.

Lemma shape_gesture (down : Pos) (moves : list Pos) (s : Canvas) :
  is_shape_tool (currentTool s) = true ->
  under_threshold down (last moves down) = false ->
  exists shape,
    createShape (drag down moves s) = Some shape /\
    drawings (gesture down moves s) = drawings s ++ [shape].
Proof.
  intros Ht Hbig.
  destruct (drag_shape_tool down moves s Ht) as (Hd & _).
  destruct (drag_anchor down moves s Ht) as (Ha & Hb).
  destruct (drag_frame down moves s) as (_ & _ & Hi & Htool & _).
  destruct (createShape_big (drag down moves s)) as (shape & Hs).
  - rewrite Htool. exact Ht.
  - rewrite Ha, Hb. exact Hbig.
  - exists shape. split; [exact Hs |].
    unfold gesture. rewrite (drawings_stopDrawing _ Hi), Hs, Htool, Hd.
    destruct (currentTool s); try discriminate Ht; reflexivity.
Qed.

Lemma startDrawing_undoStack (down : Pos) (s : Canvas) :
  currentTool s <> Tool.eraser ->
  undoStack (startDrawing down s) =
  push50 (undoStack s) (JSON_stringify (drawings s)).
Proof.
  intros Ht. unfold startDrawing. cbn.
  destruct (currentTool s); try congruence; reflexivity.
Qed.

Lemma stroke_commits (c : Stroke) (s : Canvas) :
  committing c ->
  exists shape,
    drawings (run (stroke_ops c) s) = drawings s ++ [shape] /\
    undoStack (run (stroke_ops c) s) =
    push50 (undoStack s) (JSON_stringify (drawings s)).
Proof.
  intros Hc. unfold committing in Hc. cbn [run stroke_ops fold_left step].
  set (s1 := selectTool (c_tool c) s).
  assert (Ht : currentTool s1 = c_tool c) by reflexivity.
  assert (Hu : undoStack (gesture (c_down c) (c_moves c) s1) =
               push50 (undoStack s) (JSON_stringify (drawings s))).
  { rewrite gesture_undoStack, startDrawing_undoStack; [reflexivity |].
    rewrite Ht. intros E. rewrite E in Hc. exact Hc. }
  destruct (c_tool c) eqn:T.
  - exists (Path (map point_at (c_down c :: c_moves c))
              (strokeColor s) (strokeWidth s) (roughness s)).
    split; [exact (pen_gesture (c_down c) (c_moves c) s1 Ht Hc) | exact Hu].
  - destruct (shape_gesture (c_down c) (c_moves c) s1) as (sh & _ & Hs);
      [rewrite Ht; reflexivity | exact Hc |].
    exists sh. split; [exact Hs | exact Hu].
  - destruct (shape_gesture (c_down c) (c_moves c) s1) as (sh & _ & Hs);
      [rewrite Ht; reflexivity | exact Hc |].
    exists sh. split; [exact Hs | exact Hu].
  - destruct (shape_gesture (c_down c) (c_moves c) s1) as (sh & _ & Hs);
      [rewrite Ht; reflexivity | exact Hc |].
    exists sh. split; [exact Hs | exact Hu].
  - contradiction.
Qed.

(** ** The undo stack over a session *)

Lemma run_app (ops1 ops2 : list Op) (s : Canvas) :
  run (ops1 ++ ops2) s = run ops2 (run ops1 s).
Proof. apply fold_left_app. Qed.

Lemma startDrawing_pushes (down : Pos) (s : Canvas) :
  ctx s = true ->
  exists x, undoStack (startDrawing down s) = push50 (undoStack s) x.
Proof.
  intros C. unfold startDrawing, redrawCanvas. cbn. rewrite C.
  destruct (currentTool s); eexists; reflexivity.
Qed.

Lemma clearDrawing_open (s : Canvas) :
  ctx s = true ->
  clearDrawing s = clearRedoStack (set_drawings [] (saveState s)).
Proof. intros C. unfold clearDrawing, redrawCanvas. cbn. rewrite C. reflexivity. Qed.

Lemma clearDrawing_closed (s : Canvas) :
  ctx s = false -> clearDrawing s = set_drawings [] (saveState s).
Proof. intros C. unfold clearDrawing, redrawCanvas. cbn. rewrite C. reflexivity. Qed.

Lemma step_bound (o : Op) (s : Canvas) :
  ctx s = true ->
  (length (undoStack s) + length (redoStack s) <= 50)%nat ->
  (length (undoStack (step o s)) + length (redoStack (step o s)) <= 50)%nat.
Proof.
  intros C H. destruct o; cbn [step]; try exact H.
  - rewrite (gesture_redoStack down moves s C), gesture_undoStack.
    destruct (startDrawing_pushes down s C) as (x & ->).
    rewrite push50_length by lia. cbn [length]. lia.
  - destruct (undoStack s) as [| a l] eqn:U.
    + unfold undo. rewrite U. rewrite U. exact H.
    + assert (Hne : undoStack s <> []) by (rewrite U; discriminate).
      destruct (nonempty_snoc _ Hne) as (u & x & Hu).
      rewrite (undo_snoc s u x Hu).
      match goal with |- context [restore x ?t] =>
        destruct (restore_frame x t) as (-> & -> & _) end.
      cbn. rewrite <- U, Hu in H. rewrite !length_app in *. cbn in *. lia.
  - destruct (redoStack s) as [| a l] eqn:U.
    + unfold redo. rewrite U. rewrite U. exact H.
    + assert (Hne : redoStack s <> []) by (rewrite U; discriminate).
      destruct (nonempty_snoc _ Hne) as (r & x & Hr).
      rewrite (redo_snoc s r x Hr).
      match goal with |- context [restore x ?t] =>
        destruct (restore_frame x t) as (-> & -> & _) end.
      cbn. rewrite <- U, Hr in H. rewrite !length_app in *. cbn in *. lia.
  - rewrite (clearDrawing_open s C). cbn.
    fold (push50 (undoStack s) (JSON_stringify (drawings s))).
    rewrite push50_length by lia. lia.
Qed.

Lemma run_bound (ops : list Op) (s : Canvas) :
  ctx s = true ->
  (length (undoStack s) + length (redoStack s) <= 50)%nat ->
  (length (undoStack (run ops s)) + length (redoStack (run ops s)) <= 50)%nat.
Proof.
  revert s. induction ops as [| o ops IH]; intros s C H; [exact H |].
  cbn [run fold_left]. apply IH; [rewrite step_ctx; exact C |].
  apply step_bound; assumption.
Qed.

Lemma firstn_snoc_le {A : Type} (k : nat) (l : list A) (a : A) :
  (k <= length l)%nat -> firstn k (l ++ [a]) = firstn k l.
Proof.
  intros H. rewrite firstn_app.
  replace (k - length l)%nat with 0%nat by lia.
  cbn. apply app_nil_r.
Qed.

Lemma recent_snapshots_push (n : nat) (ds : list Shape) (shape : Shape) :
  length ds = n ->
  push50 (recent_snapshots n ds) (JSON_stringify ds) =
  recent_snapshots (S n) (ds ++ [shape]).
Proof.
  intros Hn.
  assert (E : recent_snapshots n ds ++ [JSON_stringify ds] =
              map (fun k => JSON_stringify (firstn k (ds ++ [shape])))
                (seq (n - 50) (S (Nat.min n 50)))).
  { rewrite seq_S, map_app. cbn [map]. f_equal.
    - unfold recent_snapshots. apply map_ext_in. intros k Hk.
      apply in_seq in Hk. rewrite firstn_snoc_le by lia. reflexivity.
    - replace (n - 50 + Nat.min n 50)%nat with n by lia.
      rewrite firstn_snoc_le by lia. rewrite <- Hn, firstn_all. reflexivity. }
  unfold push50. rewrite E, length_map, length_seq.
  destruct (Nat.ltb_spec 50 (S (Nat.min n 50))) as [H | H].
  - replace (Nat.min n 50) with 50%nat by lia.
    cbn [seq map tl]. unfold recent_snapshots.
    replace (S n - 50)%nat with (S (n - 50)) by lia.
    replace (Nat.min (S n) 50) with 50%nat by lia. reflexivity.
  - unfold recent_snapshots.
    replace (S n - 50)%nat with (n - 50)%nat by lia.
    replace (Nat.min (S n) 50) with (S (Nat.min n 50)) by lia. reflexivity.
Qed.

Lemma strokes_history (cs : list Stroke) (s : Canvas) (n : nat) :
  length (drawings s) = n ->
  undoStack s = recent_snapshots n (drawings s) ->
  Forall committing cs ->
  let s' := run (flat_map stroke_ops cs) s in
  length (drawings s') = (n + length cs)%nat /\
  undoStack s' = recent_snapshots (n + length cs) (drawings s').
Proof.
  revert s n. induction cs as [| c cs IH]; intros s n Hn Hu Hc.
  - cbn. rewrite Nat.add_0_r. split; assumption.
  - apply Forall_cons_iff in Hc. destruct Hc as (Hc & Hcs).
    change (flat_map stroke_ops (c :: cs))
      with (stroke_ops c ++ flat_map stroke_ops cs).
    cbn zeta. rewrite run_app.
    destruct (stroke_commits c s Hc) as (shape & Hd & Hu').
    specialize (IH (run (stroke_ops c) s) (S n)).
    cbn zeta in IH. cbn [length]. rewrite Nat.add_succ_r.
    apply IH; [| | exact Hcs].
    + rewrite Hd, length_app. cbn. lia.
    + rewrite Hu', Hd, Hu. apply recent_snapshots_push. exact Hn.
Qed.

Lemma onMount_empty (canvas : bool) (width height : float) :
  drawings (onMount canvas width height None) = [].
Proof. destruct canvas; reflexivity. Qed.

(** [redo()] itself pushes on the undo stack without evicting. *)
Lemma redo_pushes_uncapped (s : Canvas) :
  redoStack s <> [] ->
  length (undoStack (redo s)) = S (length (undoStack s)).
Proof.
  intros H. destruct (nonempty_snoc _ H) as (r & x & Hr).
  rewrite (redo_snoc s r x Hr).
  match goal with |- context [restore x ?t] =>
    destruct (restore_frame x t) as (-> & _) end.
  cbn. rewrite length_app. cbn. lia.
Qed.

(** ** The history when the component is mounted behind a closed modal

    The editor mounts the component with [open] false, so [onMount] finds no
    canvas element and leaves [ctx] undefined for good.  From then on
    [redrawCanvas()] throws, and [clearRedoStack()], which [stopDrawing] and
    [clearDrawing] call after it, is never reached. *)

(** C5, at a session of the component as the editor mounts it: fifty pen
    strokes, one undo, one more stroke, one redo.  The stroke after the undo
    leaves the redo entry in place, and the redo pushes on a full undo
    stack, which [redo()] does not cap: the undo stack ends with 51
    entries. *)
Theorem undo_stack_exceeds_50 :
  let s := run fifty_strokes_undo_stroke_redo mounted_closed in
  ctx mounted_closed = false /\
  length (undoStack (run (repeat stroke_A 50) mounted_closed)) = 50%nat /\
  length (undoStack s) = 51%nat.
Proof. vm_compute. repeat split. Qed.

(** C6, at a session of the component as the editor mounts it: a stroke is
    drawn and undone, then another stroke is committed.  The redo stack
    still holds the entry of the undo, and [redo()] is not a no-op: it puts
    the undone stroke back in the place of the new one.  Clear-all leaves
    the redo entry in place as well. *)
Theorem redo_survives_commit :
  let s := run [stroke_A; OpUndo; stroke_B] mounted_closed in
  let c := run [stroke_A; OpUndo; OpClear] mounted_closed in
  drawings s = [Path [mkPoint 20 20; mkPoint 30 30] "#000000" 2 1] /\
  redoStack s <> [] /\
  drawings (redo s) = [Path [mkPoint 0 0; mkPoint 10 10] "#000000" 2 1] /\
  redo s <> s /\
  redoStack c <> [] /\
  redo c <> c.
Proof. vm_compute. repeat split; discriminate. Qed.

(** C10, at a session of the component as the editor mounts it: a stroke
    is drawn and undone, then the canvas is clicked with the pen (no move
    sample).  The click commits nothing and the redo entry of the undo is
    still there: [redo()] brings the stroke back. *)
Theorem stray_click_keeps_redo :
  let s1 := run [stroke_A; OpUndo] mounted_closed in
  let s2 := gesture (mkPos 3 4) [] s1 in
  drawings s2 = drawings s1 /\
  redoStack s2 = redoStack s1 /\
  redoStack s2 <> [] /\
  drawings (redo s2) = [Path [mkPoint 0 0; mkPoint 10 10] "#000000" 2 1] /\
  redo s2 <> s2.
Proof. vm_compute. repeat split; discriminate. Qed.


(** ** The eraser gesture and its snapshot *)

Lemma eraser_startDrawing (down : Pos) (s : Canvas) :
  currentTool s = Tool.eraser ->
  drawings (startDrawing down s) =
    drawings (erase (pos_x down) (pos_y down) s) /\
  undoStack (startDrawing down s) =
    if ctx s
    then push50 (undoStack s)
           (JSON_stringify (drawings (erase (pos_x down) (pos_y down) s)))
    else undoStack s.
Proof.
  intros Ht. unfold startDrawing, redrawCanvas. cbn. rewrite Ht.
  destruct (ctx s); split; reflexivity.
Qed.

(** What [undo()] restores right after an eraser gesture: the shape list as
    the pointer-down sample left it, not the list the gesture started from. *)
Lemma eraser_gesture_undo (down : Pos) (moves : list Pos) (s : Canvas) :
  currentTool s = Tool.eraser ->
  ctx s = true ->
  drawings (undo (gesture down moves s)) =
  reread (drawings (erase (pos_x down) (pos_y down) s)).
Proof.
  intros Ht C.
  pose proof (gesture_undoStack down moves s) as Hu.
  destruct (eraser_startDrawing down s Ht) as (_ & E). rewrite E, C in Hu.
  destruct (push50_snoc (undoStack s)
              (JSON_stringify (drawings (erase (pos_x down) (pos_y down) s))))
    as (v & Hv).
  rewrite Hv in Hu. rewrite (undo_snoc _ _ _ Hu), restore_stringify.
  reflexivity.
Qed.

Lemma stopDrawing_eraser (s : Canvas) :
  isDrawing s = true ->
  currentTool s = Tool.eraser ->
  drawings (stopDrawing s) = drawings s.
Proof.
  intros Hd Ht. rewrite (drawings_stopDrawing s Hd), Ht. apply app_nil_r.
Qed.

Lemma stopDrawing_frame (s : Canvas) :
  currentTool (stopDrawing s) = currentTool s /\
  strokeColor (stopDrawing s) = strokeColor s /\
  strokeWidth (stopDrawing s) = strokeWidth s /\
  fillColor (stopDrawing s) = fillColor s /\
  roughness (stopDrawing s) = roughness s.
Proof.
  unfold stopDrawing, redrawCanvas. destruct (isDrawing s); cbn [negb];
    [| repeat split; reflexivity].
  cbn -[Nat.ltb createShape].
  destruct (currentTool s) eqn:T; cbn -[Nat.ltb createShape];
    repeat match goal with
           | |- context [(?a <? ?b)%nat] => destruct (a <? b)%nat
           | |- context [match createShape ?t with Some _ => _ | None => _ end] =>
               destruct (createShape t)
           end; cbn; destruct (ctx s); cbn; rewrite ?T;
    repeat split; reflexivity.
Qed.

Lemma gesture_frame (down : Pos) (moves : list Pos) (s : Canvas) :
  currentTool (gesture down moves s) = currentTool s /\
  strokeColor (gesture down moves s) = strokeColor s /\
  strokeWidth (gesture down moves s) = strokeWidth s /\
  fillColor (gesture down moves s) = fillColor s /\
  roughness (gesture down moves s) = roughness s.
Proof.
  unfold gesture.
  destruct (stopDrawing_frame (drag down moves s)) as (-> & -> & -> & -> & ->).
  destruct (drag_frame down moves s)
    as (_ & _ & _ & -> & -> & -> & -> & -> & _).
  repeat split; reflexivity.
Qed.

(** C1, at a concrete session.  On an empty canvas a rectangle is drawn from
    (0,0) to (10,10) and the eraser is selected; the eraser is pressed at
    (5,5) and released.  The gesture takes one snapshot, but takes it after
    the pointer-down sample has erased the rectangle: [undo()] restores the
    empty list, not the list with the rectangle the gesture began with. *)
Theorem eraser_undo_misses_first_sample :
  let after := gesture (mkPos 5 5) [] rectangle_then_eraser in
  drawings rectangle_then_eraser =
    [Rectangle 0 0 10 10 "#000000" 2 "transparent" 1] /\
  length (undoStack after) = S (length (undoStack rectangle_then_eraser)) /\
  drawings after = [] /\
  drawings (undo after) = [] /\
  drawings (undo after) <> drawings rectangle_then_eraser.
Proof. vm_compute. repeat split; discriminate. Qed.

(** ** Erasing points of freehand paths *)

Lemma ltb_1_2 (n : nat) : (1 <? n)%nat = negb (n <? 2)%nat.
Proof. destruct n as [| [| n]]; reflexivity. Qed.

Lemma erase_visit_path (x y r : float) (pts : list Point) (c : string)
  (w ro : value) :
  erase_visit x y r (Path pts c w ro) =
  (Path (far_points x y r pts) c w ro,
   negb (length (far_points x y r pts) <? 2)%nat).
Proof.
  unfold erase_visit. f_equal. apply ltb_1_2.
Qed.

Lemma far_points_In (x y r : float) (pts : list Point) (p : Point) :
  In p (far_points x y r pts) <-> In p pts /\ (r <? dist p x y) = true.
Proof. unfold far_points. apply filter_In. Qed.

Lemma erase_split (x y : float) (s : Canvas) (before after : list Shape)
  (pts : list Point) (c : string) (w ro : value) :
  drawings s = before ++ Path pts c w ro :: after ->
  let kept := far_points x y (strokeWidth s * 3) pts in
  drawings (erase x y s) =
  drawings (erase x y (set_drawings before s)) ++
  (if (length kept <? 2)%nat then [] else [Path kept c w ro]) ++
  drawings (erase x y (set_drawings after s)).
Proof.
  intros H. cbn zeta. rewrite !drawings_erase, H.
  cbn [strokeWidth drawings set_drawings].
  rewrite map_app, filter_app, map_app. f_equal.
  cbn [map filter]. rewrite erase_visit_path. cbn [snd fst].
  destruct (length (far_points x y (strokeWidth s * 3) pts) <? 2)%nat;
    reflexivity.
Qed.

(** C8, as stated, fails.  The freehand path through (0.3,6.7), (100,100)
    and (200,200), stroke width 2, one erase sample at (0.3,0.7): the first
    point is farther than 2 * 3 = 6 from the sample (the square of their
    distance is above 36), yet the distance the eraser computes is exactly
    6, which is not greater than the radius, and the point is removed. *)
Lemma eraser_removes_farther_point :
  drawings slanted_stroke =
    [Path [mkPoint n0_3 n6_7; mkPoint 100 100; mkPoint 200 200]
       "#000000" 2 1] /\
  strokeWidth slanted_stroke * 3 = 6 /\
  (exact 6 * exact 6 < sq_distance n0_3 n6_7 n0_3 n0_7)%Q /\
  dist (mkPoint n0_3 n6_7) n0_3 n0_7 = 6 /\
  drawings (erase n0_3 n0_7 slanted_stroke) =
    [Path [mkPoint 100 100; mkPoint 200 200] "#000000" 2 1].
Proof. vm_compute. repeat split. Qed.

(** C8, amended.  One erase sample at (x,y): a freehand path of the shape
    list keeps exactly its points whose distance from (x,y) as the eraser
    computes it in binary64 arithmetic is greater than the computed
    [strokeWidth * 3], in their order, and stays at its place in the list -
    unless fewer than 2 points are left, in which case the path is gone from
    the list.  A path of three points of which the middle one only fails
    that test becomes the path of its two end points. *)
Theorem eraser_point_removal
  (s : Canvas) (x y : float) (before after : list Shape)
  (pts : list Point) (c : string) (w ro : value) :
  drawings s = before ++ Path pts c w ro :: after ->
  let r := strokeWidth s * 3 in
  let kept := far_points x y r pts in
  (forall p, In p kept <-> In p pts /\ (r <? dist p x y) = true) /\
  drawings (erase x y s) =
    drawings (erase x y (set_drawings before s)) ++
    (if (length kept <? 2)%nat then [] else [Path kept c w ro]) ++
    drawings (erase x y (set_drawings after s)) /\
  (forall a m b,
      pts = [a; m; b] ->
      (r <? dist m x y) = false ->
      (r <? dist a x y) = true ->
      (r <? dist b x y) = true ->
      drawings (erase x y s) =
        drawings (erase x y (set_drawings before s)) ++
        [Path [a; b] c w ro] ++
        drawings (erase x y (set_drawings after s))).
Proof.
  intros H r kept. subst r kept.
  split; [intros p; apply far_points_In |].
  split; [exact (erase_split x y s before after pts c w ro H) |].
  intros a m b -> Hm Ha Hb.
  rewrite (erase_split x y s before after [a; m; b] c w ro H).
  cbn zeta. unfold far_points. cbn [filter].
  rewrite Hm, Ha, Hb. reflexivity.
Qed.

Lemma eraser_point_removal_witness :
  drawings three_point_stroke =
    [Path [mkPoint 0 0; mkPoint 50 0; mkPoint 100 0] "#000000" 2 1] /\
  drawings (erase 50 0 three_point_stroke) =
    [Path [mkPoint 0 0; mkPoint 100 0] "#000000" 2 1].
Proof.
  assert (H : drawings three_point_stroke =
              [] ++ Path [mkPoint 0 0; mkPoint 50 0; mkPoint 100 0]
                      "#000000" 2 1 :: []) by (vm_compute; reflexivity).
  split; [exact H |].
  destruct (eraser_point_removal three_point_stroke 50 0 [] [] _ _ _ _ H)
    as (_ & _ & H3).
  rewrite (H3 _ _ _ eq_refl); vm_compute; reflexivity.
Defined.

(** ** The hit test of a line *)



(** * Further properties of the canvas *)

(** ** What the shape factory returns *)

Lemma createShape_inv (s : Canvas) (shape : Shape) :
  createShape s = Some shape ->
  under_threshold (mkPos (startX s) (startY s))
    (mkPos (currentX s) (currentY s)) = false /\
  ((currentTool s = Tool.rectangle /\
    shape = Rectangle (Math_min (startX s) (currentX s))
              (Math_min (startY s) (currentY s))
              (abs (currentX s - startX s)) (abs (currentY s - startY s))
              (strokeColor s) (strokeWidth s) (fillColor s) (roughness s)) \/
   (currentTool s = Tool.circle /\
    shape = Circle (startX s) (startY s)
              (sqrt (abs (currentX s - startX s) * abs (currentX s - startX s)
                     + abs (currentY s - startY s)
                       * abs (currentY s - startY s)) / 2)
              (strokeColor s) (strokeWidth s) (fillColor s) (roughness s)) \/
   (currentTool s = Tool.line /\
    shape = Line (startX s) (startY s) (currentX s) (currentY s)
              (strokeColor s) (strokeWidth s) (roughness s))).
Proof.
  rewrite createShape_threshold. intros H.
  destruct (under_threshold _ _); [discriminate H |].
  split; [reflexivity |].
  destruct (currentTool s); try discriminate H; injection H as <-; auto.
Qed.


(** ** An invariant of the shape list and the history *)

Lemma history_ok_ext (P : Shape -> Prop) (s s' : Canvas) :
  drawings s' = drawings s ->
  undoStack s' = undoStack s ->
  redoStack s' = redoStack s ->
  history_ok P s -> history_ok P s'.
Proof. unfold history_ok. intros -> -> ->. trivial. Qed.

Lemma Forall_push50 (Q : json -> Prop) (u : list json) (x : json) :
  Forall Q u -> Q x -> Forall Q (push50 u x).
Proof.
  intros Hu Hx.
  assert (H : Forall Q (u ++ [x])) by (apply Forall_app; auto).
  unfold push50. destruct (50 <? length (u ++ [x]))%nat; [| exact H].
  destruct (u ++ [x]); [constructor | inversion H; assumption].
Qed.

Lemma saveState_ok (P : Shape -> Prop) (s : Canvas) :
  history_ok P s -> history_ok P (saveState s).
Proof.
  intros (Hd & Hu & Hr). repeat split; try assumption.
  rewrite undoStack_saveState. apply Forall_push50; [exact Hu |].
  exists (drawings s). split; [reflexivity | exact Hd].
Qed.

Section HistoryInvariant.

Variable P : Shape -> Prop.
Hypothesis P_pen :
  forall pts c w r, (1 < length pts)%nat -> P (Path pts c w r).
Hypothesis P_create :
  forall s shape, createShape s = Some shape -> P shape.
Hypothesis P_erase :
  forall x y r d d', P d -> erase_visit x y r d = (d', true) -> P d'.
Hypothesis P_reread : forall d, P d -> P (reread_shape d).

Lemma Forall_erased (x y r : float) (ds : list Shape) :
  Forall P ds -> Forall P (erased x y r ds).
Proof.
  unfold erased. induction 1 as [| d ds Hd _ IH]; [constructor |].
  cbn [map filter]. destruct (erase_visit x y r d) as [d' b] eqn:E.
  destruct b; cbn [snd map fst]; [| exact IH].
  constructor; [exact (P_erase x y r d d' Hd E) | exact IH].
Qed.

Lemma Forall_reread (ds : list Shape) : Forall P ds -> Forall P (reread ds).
Proof.
  unfold reread. induction 1; cbn [map]; constructor; auto.
Qed.

Lemma erase_ok (x y : float) (s : Canvas) :
  history_ok P s -> history_ok P (erase x y s).
Proof.
  intros (Hd & Hu & Hr). repeat split; try assumption.
  rewrite drawings_erase. apply Forall_erased, Hd.
Qed.

Lemma startDrawing_ok (down : Pos) (s : Canvas) :
  history_ok P s -> history_ok P (startDrawing down s).
Proof.
  intros H. unfold startDrawing, redrawCanvas. cbn.
  destruct (currentTool s) eqn:T; cbn; rewrite ?T;
    try (apply saveState_ok;
         apply (history_ok_ext P s); [reflexivity .. | exact H]).
  assert (He : history_ok P
                 (erase (pos_x down) (pos_y down)
                    (set_current (pos_x down) (pos_y down)
                       (set_start (pos_x down) (pos_y down)
                          (set_isDrawing true s))))).
  { apply erase_ok. apply (history_ok_ext P s); [reflexivity .. | exact H]. }
  destruct (ctx s); [apply saveState_ok |]; exact He.
Qed.

Lemma draw_ok (pos : Pos) (s : Canvas) :
  history_ok P s -> history_ok P (draw pos s).
Proof.
  intros H. unfold draw. destruct (isDrawing s); cbn [negb]; [| exact H].
  cbn. destruct (currentTool s) eqn:T; cbn; rewrite ?T;
    try (apply (history_ok_ext P s); [reflexivity .. | exact H]).
  apply erase_ok. apply (history_ok_ext P s); [reflexivity .. | exact H].
Qed.

Lemma drag_ok (down : Pos) (moves : list Pos) (s : Canvas) :
  history_ok P s -> history_ok P (drag down moves s).
Proof.
  intros H. unfold drag. apply startDrawing_ok with (down := down) in H.
  revert H. generalize (startDrawing down s).
  induction moves as [| pos moves IH]; intros st H; [exact H |].
  cbn [fold_left]. apply IH, draw_ok, H.
Qed.

Lemma stopDrawing_ok (s : Canvas) :
  history_ok P s -> history_ok P (stopDrawing s).
Proof.
  intros H. pose proof H as (Hd & Hu & Hr).
  destruct (isDrawing s) eqn:I;
    [| unfold stopDrawing; rewrite I; exact H].
  destruct (stopDrawing_stacks s I) as (Eu & Er & _).
  unfold history_ok. rewrite Eu, Er, (drawings_stopDrawing s I).
  split; [| split; [exact Hu | destruct (ctx s); [constructor | exact Hr]]].
  apply Forall_app. split; [exact Hd |].
  destruct (currentTool s).
  - destruct (1 <? length (currentPath s))%nat eqn:L; [| constructor].
    constructor; [| constructor]. apply P_pen, Nat.ltb_lt, L.
  - destruct (createShape s) as [shape |] eqn:C; [| constructor].
    constructor; [exact (P_create s shape C) | constructor].
  - destruct (createShape s) as [shape |] eqn:C; [| constructor].
    constructor; [exact (P_create s shape C) | constructor].
  - destruct (createShape s) as [shape |] eqn:C; [| constructor].
    constructor; [exact (P_create s shape C) | constructor].
  - constructor.
Qed.

Lemma undo_ok (s : Canvas) : history_ok P s -> history_ok P (undo s).
Proof.
  intros H. pose proof H as (Hd & Hu & Hr).
  destruct (undoStack s) as [| a l] eqn:U.
  - unfold undo. rewrite U. exact H.
  - assert (Hne : undoStack s <> []) by (rewrite U; discriminate).
    destruct (nonempty_snoc _ Hne) as (u & x & E).
    rewrite (undo_snoc s u x E). rewrite <- U, E in Hu.
    apply Forall_app in Hu. destruct Hu as (Hu & Hx).
    inversion Hx as [| ? ? (ds & -> & Hds) _]; subst.
    rewrite restore_stringify. repeat split; cbn.
    + apply Forall_reread, Hds.
    + exact Hu.
    + apply Forall_app. split; [exact Hr |].
      constructor; [| constructor]. exists (drawings s). auto.
Qed.

Lemma redo_ok (s : Canvas) : history_ok P s -> history_ok P (redo s).
Proof.
  intros H. pose proof H as (Hd & Hu & Hr).
  destruct (redoStack s) as [| a l] eqn:U.
  - unfold redo. rewrite U. exact H.
  - assert (Hne : redoStack s <> []) by (rewrite U; discriminate).
    destruct (nonempty_snoc _ Hne) as (r & x & E).
    rewrite (redo_snoc s r x E). rewrite <- U, E in Hr.
    apply Forall_app in Hr. destruct Hr as (Hr & Hx).
    inversion Hx as [| ? ? (ds & -> & Hds) _]; subst.
    rewrite restore_stringify. repeat split; cbn.
    + apply Forall_reread, Hds.
    + apply Forall_app. split; [exact Hu |].
      constructor; [| constructor]. exists (drawings s). auto.
    + exact Hr.
Qed.

Lemma clearDrawing_ok (s : Canvas) :
  history_ok P s -> history_ok P (clearDrawing s).
Proof.
  intros H. destruct (saveState_ok P s H) as (_ & Hu & Hr).
  destruct (ctx s) eqn:C.
  - rewrite (clearDrawing_open s C).
    repeat split; [constructor | exact Hu | constructor].
  - rewrite (clearDrawing_closed s C).
    repeat split; [constructor | exact Hu | exact Hr].
Qed.

Lemma step_ok (o : Op) (s : Canvas) :
  history_ok P s -> history_ok P (step o s).
Proof.
  intros H. destruct o; cbn [step].
  - apply stopDrawing_ok, drag_ok, H.
  - apply undo_ok, H.
  - apply redo_ok, H.
  - apply clearDrawing_ok, H.
  - exact H.
  - exact H.
  - exact H.
  - exact H.
Qed.

Lemma run_ok (ops : list Op) (s : Canvas) :
  history_ok P s -> history_ok P (run ops s).
Proof.
  revert s. induction ops as [| o ops IH]; intros s H; [exact H |].
  cbn [run fold_left]. apply IH, step_ok, H.
Qed.

End HistoryInvariant.

Lemma always_true_ok (s : Canvas) :
  undoStack s = [] -> redoStack s = [] -> history_ok (fun _ => True) s.
Proof.
  intros Hu Hr. unfold history_ok. rewrite Hu, Hr.
  split; [apply Forall_forall; trivial | split; constructor].
Qed.

Lemma run_snapshots (ops : list Op) (canvas : bool) (width height : float)
  (init : option DrawingData) :
  history_ok (fun _ => True) (run ops (onMount canvas width height init)).
Proof.
  destruct (onMount_stacks canvas width height init) as (Hu & Hr).
  exact (run_ok (fun _ => True)
           (fun _ _ _ _ _ => I) (fun _ _ _ => I) (fun _ _ _ _ _ _ _ => I)
           (fun _ _ => I) ops _ (always_true_ok _ Hu Hr)).
Qed.

(** X2. In every state a component reaches, however it was mounted, each
    entry of the undo stack and of the redo stack is the text of a shape
    list, and [JSON.parse] reads that list back from it. *)
Theorem history_entries_are_snapshots
  (ops : list Op) (canvas : bool) (width height : float)
  (init : option DrawingData) :
  let s := run ops (onMount canvas width height init) in
  Forall (fun text =>
            exists ds, text = JSON_stringify ds /\ JSON_parse text = Some ds)
    (undoStack s ++ redoStack s).
Proof.
  cbn zeta.
  destruct (run_snapshots ops canvas width height init) as (_ & Hu' & Hr').
  assert (Himp : forall text,
             snapshot_of (fun _ => True) text ->
             exists ds, text = JSON_stringify ds /\ JSON_parse text = Some ds).
  { intros text (ds & -> & _). exists (reread ds).
    split; [symmetry; apply stringify_reread | apply JSON_roundtrip]. }
  apply Forall_app. split; eapply Forall_impl; eauto.
Qed.

Lemma well_formed_erase (x y r : float) (d d' : Shape) :
  well_formed d -> erase_visit x y r d = (d', true) -> well_formed d'.
Proof.
  intros Hd E. destruct d; cbn [erase_visit] in E;
    try (injection E as <- _; exact Hd).
  injection E as <- L. cbn [well_formed]. apply Nat.ltb_lt in L. lia.
Qed.

Lemma well_formed_reread (d : Shape) : well_formed d -> well_formed (reread_shape d).
Proof.
  destruct d; cbn [well_formed reread_shape]; trivial.
  rewrite length_map. trivial.
Qed.

Lemma well_formed_create (s : Canvas) (shape : Shape) :
  createShape s = Some shape -> well_formed shape.
Proof.
  intros H. destruct (createShape_inv s shape H)
    as (_ & [(_ & ->) | [(_ & ->) | (_ & ->)]]); exact I.
Qed.

(** X8. On a component mounted without initial drawing, every freehand
    path of the shape list, and of every shape list that undo or redo can
    bring back, has at least two points: neither the pen, nor the eraser,
    nor the history ever leaves a path of fewer than two points behind. *)
Theorem committed_shapes_well_formed
  (ops : list Op) (canvas : bool) (width height : float) :
  let s := run ops (onMount canvas width height None) in
  (forall pts c w ro,
      In (Path pts c w ro) (drawings s) -> (2 <= length pts)%nat) /\
  Forall (snapshot_of well_formed) (undoStack s ++ redoStack s).
Proof.
  cbn zeta.
  destruct (run_ok well_formed
              ltac:(intros pts c w r H; cbn; lia)
              well_formed_create
              well_formed_erase
              well_formed_reread
              ops (onMount canvas width height None))
    as (Hd & Hu & Hr).
  - destruct canvas; repeat split; constructor.
  - split; [| apply Forall_app; split; assumption].
    intros pts c w ro Hin. rewrite Forall_forall in Hd.
    exact (Hd _ Hin).
Qed.

(** ** Undo and redo as inverses *)

Lemma undo_redo_state (s : Canvas) (u : list json) (ds : list Shape) :
  undoStack s = u ++ [JSON_stringify ds] ->
  representable (drawings s) ->
  redo (undo s) = s.
Proof.
  intros H R. rewrite (undo_snoc s u _ H), restore_stringify.
  match goal with |- redo ?t = _ =>
    rewrite (redo_snoc t (redoStack s) (JSON_stringify (drawings s)) eq_refl)
  end.
  rewrite (restore_representable _ _ R).
  cbn [drawings set_drawings set_undoStack set_redoStack undoStack redoStack
       isDrawing currentPath currentTool strokeColor strokeWidth fillColor
       roughness startX startY currentX currentY canvas_width canvas_height
       ctx].
  rewrite stringify_reread, <- H. destruct s; reflexivity.
Qed.

Lemma redo_undo_state (s : Canvas) (r : list json) (ds : list Shape) :
  redoStack s = r ++ [JSON_stringify ds] ->
  representable (drawings s) ->
  undo (redo s) = s.
Proof.
  intros H R. rewrite (redo_snoc s r _ H), restore_stringify.
  match goal with |- undo ?t = _ =>
    rewrite (undo_snoc t (undoStack s) (JSON_stringify (drawings s)) eq_refl)
  end.
  rewrite (restore_representable _ _ R).
  cbn [drawings set_drawings set_undoStack set_redoStack undoStack redoStack
       isDrawing currentPath currentTool strokeColor strokeWidth fillColor
       roughness startX startY currentX currentY canvas_width canvas_height
       ctx].
  rewrite stringify_reread, <- H. destruct s; reflexivity.
Qed.

(** X1. When the top of the undo stack is the text of a shape list and the
    current shape list is read back by JSON as printed, [undo()] followed by
    [redo()] gives back the whole state: shape list, undo stack and redo
    stack; and likewise [redo()] followed by [undo()] when the top of the
    redo stack is the text of a shape list. *)
Theorem undo_redo_inverse :
  (forall s u ds,
      undoStack s = u ++ [JSON_stringify ds] ->
      representable (drawings s) ->
      redo (undo s) = s) /\
  (forall s r ds,
      redoStack s = r ++ [JSON_stringify ds] ->
      representable (drawings s) ->
      undo (redo s) = s).
Proof. split; [exact undo_redo_state | exact redo_undo_state]. Qed.

Lemma undo_redo_inverse_witness :
  redo (undo one_stroke) = one_stroke /\
  undo (redo (undo one_stroke)) = undo one_stroke.
Proof.
  destruct undo_redo_inverse as (H1 & H2). split.
  - apply (H1 one_stroke [] []); vm_compute; reflexivity.
  - apply (H2 (undo one_stroke) []
             [Path [mkPoint 0 0; mkPoint 10 10] "#000000" 2 1]);
      vm_compute; reflexivity.
Defined.

Lemma undo_pops (s : Canvas) (u : list json) (x : json) :
  undoStack s = u ++ [x] -> undoStack (undo s) = u.
Proof.
  intros H. rewrite (undo_snoc s u x H).
  match goal with |- context [restore x ?t] =>
    destruct (restore_frame x t) as (-> & _) end.
  reflexivity.
Qed.

Lemma undo_all_redo_all (k : nat) (s : Canvas) :
  Forall (snapshot_of (fun _ => True)) (undoStack s) ->
  representable (drawings s) ->
  (k <= length (undoStack s))%nat ->
  Nat.iter k redo (Nat.iter k undo s) = s.
Proof.
  revert s. induction k as [| k IH]; intros s Hs R Hk; [reflexivity |].
  destruct (undoStack s) as [| a l] eqn:U; [cbn in Hk; lia |].
  assert (Hne : undoStack s <> []) by (rewrite U; discriminate).
  destruct (nonempty_snoc _ Hne) as (u & x & E).
  rewrite <- U, E in Hs, Hk.
  apply Forall_app in Hs. destruct Hs as (Hu & Hx).
  inversion Hx as [| ? ? (ds & -> & _) _]; subst.
  rewrite (Nat.iter_succ_r k _ undo s), Nat.iter_succ.
  rewrite IH.
  - exact (undo_redo_state s u ds E R).
  - rewrite (undo_pops s u _ E). exact Hu.
  - rewrite (undo_snoc s u _ E), restore_stringify. apply reread_representable.
  - rewrite (undo_pops s u _ E). rewrite length_app in Hk. cbn in Hk. lia.
Qed.

(** X3. In every state a component reaches whose shape list is read back by
    JSON as printed, undoing [k] times (for any [k] up to the size of the
    undo stack) and then redoing [k] times gives back the whole state. *)
Theorem undo_many_then_redo_many
  (ops : list Op) (canvas : bool) (width height : float)
  (init : option DrawingData) (k : nat) :
  let s := run ops (onMount canvas width height init) in
  representable (drawings s) ->
  (k <= length (undoStack s))%nat ->
  Nat.iter k redo (Nat.iter k undo s) = s.
Proof.
  cbn zeta. intros R Hk. apply undo_all_redo_all; [| exact R | exact Hk].
  apply (run_snapshots ops canvas width height init).
Qed.

Lemma undo_many_then_redo_many_witness :
  let s := run [OpGesture (mkPos 0 0) [mkPos 10 10]; OpClear]
             (onMount true 800 600 None) in
  Nat.iter 2 redo (Nat.iter 2 undo s) = s.
Proof.
  apply (undo_many_then_redo_many
           [OpGesture (mkPos 0 0) [mkPos 10 10]; OpClear] true 800 600 None 2).
  - vm_compute. reflexivity.
  - vm_compute. lia.
Defined.

(** ** What one undo reverts *)

Lemma drag_drawings (down : Pos) (moves : list Pos) (s : Canvas) :
  currentTool s <> Tool.eraser ->
  drawings (drag down moves s) = drawings s.
Proof.
  intros Ht. destruct (currentTool s) eqn:T; try congruence.
  - apply (drag_pen down moves s T).
  - apply drag_shape_tool. rewrite T. reflexivity.
  - apply drag_shape_tool. rewrite T. reflexivity.
  - apply drag_shape_tool. rewrite T. reflexivity.
Qed.

Lemma undoStack_clearDrawing (s : Canvas) :
  undoStack (clearDrawing s) =
  push50 (undoStack s) (JSON_stringify (drawings s)).
Proof.
  unfold clearDrawing, redrawCanvas. cbn. destruct (ctx s); reflexivity.
Qed.

(** X4. When the shape list is read back by JSON as printed, one [undo()]
    right after a gesture with any tool but the eraser gives back the shape
    list the gesture started from, whatever the gesture committed; when the
    undo stack was not full it also gives back the undo stack.  One
    [undo()] right after clear-all gives back the shape list that was
    cleared. *)
Theorem undo_reverts_gesture (s : Canvas) (down : Pos) (moves : list Pos) :
  currentTool s <> Tool.eraser ->
  representable (drawings s) ->
  drawings (undo (gesture down moves s)) = drawings s /\
  ((length (undoStack s) < 50)%nat ->
   undoStack (undo (gesture down moves s)) = undoStack s) /\
  drawings (undo (clearDrawing s)) = drawings s.
Proof.
  intros Ht R.
  pose proof (gesture_undoStack down moves s) as Hu.
  rewrite (startDrawing_undoStack down s Ht) in Hu.
  split; [| split].
  - destruct (push50_snoc (undoStack s) (JSON_stringify (drawings s)))
      as (v & Hv).
    rewrite Hv in Hu.
    rewrite (undo_snoc _ _ _ Hu), (restore_representable _ _ R).
    reflexivity.
  - intros Hlen. rewrite (push50_below _ _ Hlen) in Hu.
    exact (undo_pops _ _ _ Hu).
  - destruct (push50_snoc (undoStack s) (JSON_stringify (drawings s)))
      as (v & Hv).
    assert (Hc : undoStack (clearDrawing s) = v ++ [JSON_stringify (drawings s)])
      by (rewrite <- Hv; apply undoStack_clearDrawing).
    rewrite (undo_snoc _ _ _ Hc), (restore_representable _ _ R).
    reflexivity.
Qed.

Lemma undo_reverts_gesture_witness :
  drawings (undo (gesture (mkPos 1 1) [mkPos 30 40] rectangle_ready))
  = drawings rectangle_ready /\
  drawings (undo (clearDrawing rectangle_ready)) = drawings rectangle_ready.
Proof.
  destruct (undo_reverts_gesture rectangle_ready (mkPos 1 1) [mkPos 30 40])
    as (H1 & _ & H3).
  - vm_compute. discriminate.
  - vm_compute. reflexivity.
  - split; [exact H1 | exact H3].
Defined.

(** ** Undoing a run of commits *)

Lemma undo_snapshots (D : list Shape) (a : nat) (k m : nat) (s : Canvas) :
  representable D ->
  undoStack s =
    map (fun i => JSON_stringify (firstn i D)) (seq a m) ->
  drawings s = firstn (a + m) D ->
  (k <= m)%nat ->
  drawings (Nat.iter k undo s) = firstn (a + m - k) D /\
  undoStack (Nat.iter k undo s) =
    map (fun i => JSON_stringify (firstn i D)) (seq a (m - k)).
Proof.
  intros R. revert m s. induction k as [| k IH]; intros m s Hu Hd Hk.
  - rewrite !Nat.sub_0_r. split; assumption.
  - destruct m as [| m]; [lia |].
    rewrite seq_S, map_app in Hu. cbn [map] in Hu.
    rewrite Nat.iter_succ_r.
    destruct (IH m (undo s)) as (Hd' & Hu').
    + exact (undo_pops s _ _ Hu).
    + rewrite (undo_snoc s _ _ Hu),
        (restore_representable _ _ (representable_firstn _ _ R)).
      reflexivity.
    + lia.
    + replace (a + S m - S k)%nat with (a + m - k)%nat by lia.
      replace (S m - S k)%nat with (m - k)%nat by lia.
      split; assumption.
Qed.

(** X5. After [n] committing gestures on a freshly mounted component whose
    resulting shape list is read back by JSON as printed, [k] undos (for
    any [k] up to [n] and up to 50) leave exactly the first [n - k]
    committed shapes.  So up to 50 commits can be undone down to the empty
    canvas; of more than 50 commits only the last 50 can be undone, and the
    first [n - 50] shapes stay. *)
Theorem undo_commits
  (cs : list Stroke) (canvas : bool) (width height : float) (k : nat) :
  Forall committing cs ->
  (k <= Nat.min (length cs) 50)%nat ->
  let s := run (flat_map stroke_ops cs) (onMount canvas width height None) in
  representable (drawings s) ->
  drawings (Nat.iter k undo s) = firstn (length cs - k) (drawings s) /\
  (k = Nat.min (length cs) 50 -> undoStack (Nat.iter k undo s) = []).
Proof.
  intros Hc Hk. cbn zeta. intros R.
  destruct (strokes_history cs (onMount canvas width height None) 0)
    as (Hlen & Hu);
    [rewrite onMount_empty; reflexivity
    | rewrite onMount_empty; apply (onMount_stacks canvas width height None)
    | exact Hc |].
  cbn [Nat.add] in Hlen, Hu. unfold recent_snapshots in Hu.
  set (s := run (flat_map stroke_ops cs) (onMount canvas width height None)) in *.
  destruct (undo_snapshots (drawings s) (length cs - 50) k
              (Nat.min (length cs) 50) s R Hu) as (Hd' & Hu').
  - replace (length cs - 50 + Nat.min (length cs) 50)%nat
      with (length (drawings s)) by lia.
    symmetry. apply firstn_all.
  - exact Hk.
  - split.
    + rewrite Hd'. f_equal. lia.
    + intros ->. rewrite Hu', Nat.sub_diag. reflexivity.
Qed.

Lemma undo_commits_witness :
  let cs := [mkStroke Tool.pen (mkPos 0 0) [mkPos 10 10];
             mkStroke Tool.pen (mkPos 5 5) [mkPos 7 9]] in
  let s := run (flat_map stroke_ops cs) (onMount true 800 600 None) in
  drawings (Nat.iter 2 undo s) = firstn (length cs - 2) (drawings s).
Proof.
  apply (undo_commits
           [mkStroke Tool.pen (mkPos 0 0) [mkPos 10 10];
            mkStroke Tool.pen (mkPos 5 5) [mkPos 7 9]] true 800 600 2).
  - repeat constructor; cbn; discriminate.
  - cbn. lia.
  - vm_compute. reflexivity.
Defined.

(** ** Between gestures *)

Lemma stopDrawing_isDrawing (s : Canvas) : isDrawing (stopDrawing s) = false.
Proof.
  unfold stopDrawing, redrawCanvas.
  destruct (isDrawing s) eqn:I; cbn [negb]; [| exact I].
  cbn -[Nat.ltb createShape].
  destruct (currentTool s); cbn -[Nat.ltb createShape];
    repeat match goal with
           | |- context [(?a <? ?b)%nat] => destruct (a <? b)%nat
           | |- context [match createShape ?t with Some _ => _ | None => _ end] =>
               destruct (createShape t)
           end; cbn; destruct (ctx s); reflexivity.
Qed.

Lemma step_idle (o : Op) (s : Canvas) :
  isDrawing s = false -> isDrawing (step o s) = false.
Proof.
  intros H. destruct o; cbn [step]; try exact H.
  - apply stopDrawing_isDrawing.
  - unfold undo. destruct (undoStack s); [exact H |].
    match goal with |- context [restore ?x ?t] =>
      destruct (restore_frame x t) as (_ & _ & _ & -> & _) end.
    exact H.
  - unfold redo. destruct (redoStack s); [exact H |].
    match goal with |- context [restore ?x ?t] =>
      destruct (restore_frame x t) as (_ & _ & _ & -> & _) end.
    exact H.
  - unfold clearDrawing, redrawCanvas. cbn. destruct (ctx s); exact H.
Qed.

Lemma onMount_idle (canvas : bool) (width height : float)
  (init : option DrawingData) :
  isDrawing (onMount canvas width height init) = false.
Proof.
  destruct canvas; [| reflexivity].
  destruct init as [[[ds |] w h t] |]; reflexivity.
Qed.

(** X6. Between gestures no gesture is in flight: in every state reached
    by whole gestures, undo, redo, clear-all and selections, a move sample
    ([draw]) changes nothing, and so does a pointer-up or the pointer
    leaving the canvas ([stopDrawing]) - in particular it does not empty
    the redo stack. *)
Theorem idle_between_gestures
  (ops : list Op) (canvas : bool) (width height : float)
  (init : option DrawingData) (pos : Pos) :
  let s := run ops (onMount canvas width height init) in
  isDrawing s = false /\ draw pos s = s /\ stopDrawing s = s.
Proof.
  cbn zeta.
  assert (H : isDrawing (run ops (onMount canvas width height init)) = false).
  { generalize (onMount_idle canvas width height init).
    generalize (onMount canvas width height init).
    induction ops as [| o ops IH]; intros s Hs; [exact Hs |].
    cbn [run fold_left]. apply IH, step_idle, Hs. }
  split; [exact H |].
  unfold draw, stopDrawing. rewrite H. split; reflexivity.
Qed.

(** ** Pen strokes *)

(** X9. With the pen selected, a gesture with at least one move sample
    appends one freehand path - the pointer-down position followed by the
    move samples, in the current stroke colour, width and roughness -
    however short the stroke is; a click without a move sample leaves the
    shape list as it was. *)
Theorem pen_stroke_commits (s : Canvas) (down : Pos) (moves : list Pos) :
  currentTool s = Tool.pen ->
  (moves <> [] ->
   drawings (gesture down moves s) =
   drawings s ++
     [Path (map point_at (down :: moves))
        (strokeColor s) (strokeWidth s) (roughness s)]) /\
  drawings (gesture down [] s) = drawings s.
Proof.
  intros Ht. split.
  - intros Hm. exact (pen_gesture down moves s Ht Hm).
  - exact (pen_click down s Ht).
Qed.

Lemma pen_stroke_commits_witness :
  drawings (gesture (mkPos 3 3) [mkPos 3 4] (onMount true 800 600 None)) =
  [Path [mkPoint 3 3; mkPoint 3 4] "#000000" 2 1] /\
  drawings (gesture (mkPos 3 3) [] (onMount true 800 600 None)) = [].
Proof.
  destruct (pen_stroke_commits (onMount true 800 600 None) (mkPos 3 3)
              [mkPos 3 4] eq_refl) as (H1 & H2).
  split; [apply H1; discriminate | exact H2].
Defined.

(** ** Algebra of the eraser *)

Lemma erase_erased (x y : float) (s : Canvas) :
  drawings (erase x y s) = erased x y (strokeWidth s * 3) (drawings s).
Proof. reflexivity. Qed.

Lemma erased_app (x y r : float) (l1 l2 : list Shape) :
  erased x y r (l1 ++ l2) = erased x y r l1 ++ erased x y r l2.
Proof. unfold erased. rewrite map_app, filter_app, map_app. reflexivity. Qed.

Lemma erased_cons (x y r : float) (d : Shape) (l : list Shape) :
  erased x y r (d :: l) = erased x y r [d] ++ erased x y r l.
Proof. apply (erased_app x y r [d] l). Qed.

Lemma erased_path (x y r : float) (pts : list Point) (c : string)
  (w ro : value) :
  erased x y r [Path pts c w ro] =
  if (length (far_points x y r pts) <? 2)%nat then []
  else [Path (far_points x y r pts) c w ro].
Proof.
  unfold erased. cbn [map filter]. rewrite erase_visit_path. cbn [snd].
  destruct (length (far_points x y r pts) <? 2)%nat; reflexivity.
Qed.

Lemma erased_shape (x y r : float) (d : Shape) :
  is_path d = false ->
  erased x y r [d] = if isPointInShape x y d r then [] else [d].
Proof.
  intros H. destruct d; try discriminate H; unfold erased;
    cbn [map filter erase_visit];
    match goal with |- context [isPointInShape ?a ?b ?c ?d] =>
      destruct (isPointInShape a b c d) end; reflexivity.
Qed.

Lemma far_points_length (x y r : float) (pts : list Point) :
  (length (far_points x y r pts) <= length pts)%nat.
Proof.
  unfold far_points. induction pts as [| p pts IH]; [reflexivity |].
  cbn [filter]. destruct (r <? dist p x y); cbn [length]; lia.
Qed.

Lemma far_points_comm (x1 y1 x2 y2 r : float) (pts : list Point) :
  far_points x1 y1 r (far_points x2 y2 r pts) =
  far_points x2 y2 r (far_points x1 y1 r pts).
Proof.
  unfold far_points. induction pts as [| p pts IH]; [reflexivity |].
  cbn [filter].
  destruct (r <? dist p x2 y2) eqn:E2;
    destruct (r <? dist p x1 y1) eqn:E1;
    cbn [filter]; rewrite ?E1, ?E2, IH; reflexivity.
Qed.

Lemma far_points_idem (x y r : float) (pts : list Point) :
  far_points x y r (far_points x y r pts) = far_points x y r pts.
Proof.
  unfold far_points. induction pts as [| p pts IH]; [reflexivity |].
  cbn [filter]. destruct (r <? dist p x y) eqn:E;
    cbn [filter]; rewrite ?E, IH; reflexivity.
Qed.

Lemma erased_path_twice (x1 y1 x2 y2 r : float)
  (pts : list Point) (c : string) (w ro : value) :
  erased x1 y1 r (erased x2 y2 r [Path pts c w ro]) =
  if (length (far_points x1 y1 r (far_points x2 y2 r pts)) <? 2)%nat
  then []
  else [Path (far_points x1 y1 r (far_points x2 y2 r pts)) c w ro].
Proof.
  rewrite erased_path.
  destruct (Nat.ltb_spec (length (far_points x2 y2 r pts)) 2) as [H | H].
  - pose proof (far_points_length x1 y1 r (far_points x2 y2 r pts)) as L.
    replace (length (far_points x1 y1 r (far_points x2 y2 r pts)) <? 2)%nat
      with true by (symmetry; apply Nat.ltb_lt; lia).
    reflexivity.
  - apply erased_path.
Qed.

Lemma erased_comm_single (x1 y1 x2 y2 r : float) (d : Shape) :
  erased x1 y1 r (erased x2 y2 r [d]) = erased x2 y2 r (erased x1 y1 r [d]).
Proof.
  destruct (is_path d) eqn:Hp.
  - destruct d; try discriminate Hp.
    rewrite !erased_path_twice, far_points_comm. reflexivity.
  - rewrite !(erased_shape _ _ _ d Hp).
    destruct (isPointInShape x1 y1 d r) eqn:H1;
      destruct (isPointInShape x2 y2 d r) eqn:H2;
      rewrite ?(erased_shape _ _ _ d Hp), ?H1, ?H2; reflexivity.
Qed.

Lemma erased_comm (x1 y1 x2 y2 r : float) (ds : list Shape) :
  erased x1 y1 r (erased x2 y2 r ds) = erased x2 y2 r (erased x1 y1 r ds).
Proof.
  induction ds as [| d ds IH]; [reflexivity |].
  rewrite (erased_cons x2 y2), (erased_cons x1 y1 r d), !erased_app, IH.
  rewrite erased_comm_single. reflexivity.
Qed.

Lemma erased_idem_single (x y r : float) (d : Shape) :
  erased x y r (erased x y r [d]) = erased x y r [d].
Proof.
  destruct (is_path d) eqn:Hp.
  - destruct d; try discriminate Hp.
    rewrite erased_path_twice, far_points_idem. symmetry. apply erased_path.
  - rewrite (erased_shape _ _ _ d Hp).
    destruct (isPointInShape x y d r) eqn:H; [reflexivity |].
    rewrite (erased_shape _ _ _ d Hp), H. reflexivity.
Qed.

Lemma erased_idem (x y r : float) (ds : list Shape) :
  erased x y r (erased x y r ds) = erased x y r ds.
Proof.
  induction ds as [| d ds IH]; [reflexivity |].
  rewrite (erased_cons x y r d), erased_app, IH, erased_idem_single.
  reflexivity.
Qed.

(** X10. Erasing twice at the same position is the same as erasing once:
    a second sample at a position removes nothing more. *)
Theorem erase_idempotent (x y : float) (s : Canvas) :
  drawings (erase x y (erase x y s)) = drawings (erase x y s).
Proof.
  rewrite (erase_erased x y (erase x y s)), (erase_erased x y s).
  change (strokeWidth (erase x y s)) with (strokeWidth s).
  apply erased_idem.
Qed.

(** X11. The shape list left by two erase samples does not depend on the
    order in which the two positions are visited. *)
Theorem erase_commutes (x1 y1 x2 y2 : float) (s : Canvas) :
  drawings (erase x1 y1 (erase x2 y2 s)) =
  drawings (erase x2 y2 (erase x1 y1 s)).
Proof.
  rewrite (erase_erased x1 y1 (erase x2 y2 s)), (erase_erased x2 y2 s).
  rewrite (erase_erased x2 y2 (erase x1 y1 s)), (erase_erased x1 y1 s).
  change (strokeWidth (erase x2 y2 s)) with (strokeWidth s).
  change (strokeWidth (erase x1 y1 s)) with (strokeWidth s).
  apply erased_comm.
Qed.

(** ** What the eraser leaves *)

Lemma erased_length (x y r : float) (ds : list Shape) :
  (length (erased x y r ds) <= length ds)%nat.
Proof.
  induction ds as [| d ds IH]; [reflexivity |].
  rewrite erased_cons, length_app. cbn [length].
  assert (length (erased x y r [d]) <= 1)%nat; [| lia].
  unfold erased. cbn [map filter].
  destruct (snd (erase_visit x y r d)); cbn; lia.
Qed.

Lemma erased_In (x y r : float) (ds : list Shape) (sh : Shape) :
  In sh (erased x y r ds) ->
  (is_path sh = false /\ In sh ds /\ isPointInShape x y sh r = false) \/
  (exists pts c w ro,
      In (Path pts c w ro) ds /\
      sh = Path (far_points x y r pts) c w ro /\
      (2 <= length (far_points x y r pts))%nat).
Proof.
  induction ds as [| d ds IH]; [intros [] |].
  rewrite erased_cons. intros H. apply in_app_or in H.
  destruct H as [H | H].
  - destruct (is_path d) eqn:Hp.
    + destruct d as [pts c w ro | | |]; try discriminate Hp.
      rewrite erased_path in H.
      destruct (Nat.ltb_spec (length (far_points x y r pts)) 2)
        as [L | L]; [destruct H |].
      destruct H as [<- | []]. right. exists pts, c, w, ro.
      repeat split; [left; reflexivity | exact L].
    + rewrite (erased_shape _ _ _ d Hp) in H.
      destruct (isPointInShape x y d r) eqn:Hit; [destruct H |].
      destruct H as [<- | []]. left. repeat split; auto. left. reflexivity.
  - destruct (IH H) as [(H1 & H2 & H3) | (pts & c & w & ro & H1 & H2 & H3)].
    + left. repeat split; auto. right. exact H2.
    + right. exists pts, c, w, ro. repeat split; auto. right. exact H1.
Qed.

(** X12. An erase sample only removes: the shape list does not get longer,
    and each shape left is either a rectangle, circle or line of the list,
    untouched and not hit by the sample, or a path of the list reduced to
    its points whose computed distance from the sample is greater than the
    radius, at least two of them.  No erase leaves a path of fewer than two
    points in the list. *)
Theorem erase_only_removes (x y : float) (s : Canvas) :
  (length (drawings (erase x y s)) <= length (drawings s))%nat /\
  (forall sh,
      In sh (drawings (erase x y s)) ->
      (is_path sh = false /\ In sh (drawings s) /\
       isPointInShape x y sh (strokeWidth s * 3) = false) \/
      (exists pts c w ro,
          In (Path pts c w ro) (drawings s) /\
          sh = Path (far_points x y (strokeWidth s * 3) pts) c w ro /\
          (2 <= length (far_points x y (strokeWidth s * 3) pts))%nat)).
Proof.
  rewrite erase_erased. split; [apply erased_length |].
  intros sh. apply erased_In.
Qed.

Lemma far_points_all (x y r : float) (pts : list Point) :
  (forall p, In p pts -> (r <? dist p x y) = true) ->
  far_points x y r pts = pts.
Proof.
  unfold far_points. induction pts as [| p pts IH]; intros H; [reflexivity |].
  cbn [filter]. rewrite (H p (or_introl eq_refl)).
  f_equal. apply IH. intros p' Hp'. apply H. right. exact Hp'.
Qed.

Lemma erased_nothing (x y r : float) (ds : list Shape) :
  (forall sh,
      In sh ds ->
      match sh with
      | Path pts _ _ _ =>
          (2 <= length pts)%nat /\
          forall p, In p pts -> (r <? dist p x y) = true
      | _ => isPointInShape x y sh r = false
      end) ->
  erased x y r ds = ds.
Proof.
  induction ds as [| d ds IH]; intros H; [reflexivity |].
  rewrite erased_cons, IH by (intros sh Hsh; apply H; right; exact Hsh).
  pose proof (H d (or_introl eq_refl)) as Hd.
  destruct d as [pts c w ro | | |].
  - destruct Hd as (L & Hfar).
    rewrite erased_path, (far_points_all _ _ _ _ Hfar).
    replace (length pts <? 2)%nat with false
      by (symmetry; apply Nat.ltb_ge; exact L).
    reflexivity.
  - rewrite erased_shape, Hd by reflexivity. reflexivity.
  - rewrite erased_shape, Hd by reflexivity. reflexivity.
  - rewrite erased_shape, Hd by reflexivity. reflexivity.
Qed.

(** X13. An erase sample whose computed distance from every point of every
    path (each of at least two points) is greater than the radius, and that
    hits no rectangle, circle or line, leaves the shape list exactly as it
    was. *)
Theorem erase_far_is_noop (x y : float) (s : Canvas) :
  (forall sh,
      In sh (drawings s) ->
      match sh with
      | Path pts _ _ _ =>
          (2 <= length pts)%nat /\
          forall p, In p pts -> (strokeWidth s * 3 <? dist p x y) = true
      | _ => isPointInShape x y sh (strokeWidth s * 3) = false
      end) ->
  drawings (erase x y s) = drawings s.
Proof. intros H. rewrite erase_erased. apply erased_nothing, H. Qed.

Lemma erase_far_is_noop_witness :
  drawings (erase 50 100 three_point_stroke) = drawings three_point_stroke.
Proof.
  apply (erase_far_is_noop 50 100 three_point_stroke).
  change (drawings three_point_stroke)
    with [Path [mkPoint 0 0; mkPoint 50 0; mkPoint 100 0] "#000000" 2 1].
  change (strokeWidth three_point_stroke) with 2.
  intros sh [<- | []]. split; [cbn; lia |].
  intros p [<- | [<- | [<- | []]]]; vm_compute; reflexivity.
Defined.

Lemma erase_only_removes_witness :
  let sh := Path [mkPoint 0 0; mkPoint 50 0; mkPoint 100 0] "#000000" 2 1 in
  In sh (drawings (erase 50 100 three_point_stroke)) /\
  ((is_path sh = false /\ In sh (drawings three_point_stroke) /\
    isPointInShape 50 100 sh (strokeWidth three_point_stroke * 3) = false) \/
   (exists pts c w ro,
       In (Path pts c w ro) (drawings three_point_stroke) /\
       sh = Path (far_points 50 100
                    (strokeWidth three_point_stroke * 3) pts) c w ro /\
       (2 <= length (far_points 50 100
                       (strokeWidth three_point_stroke * 3) pts))%nat)).
Proof.
  cbn zeta.
  assert (H : In (Path [mkPoint 0 0; mkPoint 50 0; mkPoint 100 0] "#000000" 2 1)
                (drawings (erase 50 100 three_point_stroke))).
  { vm_compute. left. reflexivity. }
  split; [exact H |].
  exact (proj2 (erase_only_removes 50 100 three_point_stroke) _ H).
Defined.

(** ** Pointer positions *)

(** X16. A touch event is located by its first touch alone, by the same
    computation as a mouse event at that client position; an event without
    a touch throws.  The position is the offset in the displayed box times
    the computed ratio of canvas size to box size, each step rounded: on an
    800 x 600 canvas displayed 704 wide, the left edge of the box maps to 0
    and the right edge to 800.0000000000001, beyond the canvas width. *)
Theorem pointer_position_in_canvas :
  (forall rect clientX clientY rest s,
      getTouchPos rect ((clientX, clientY) :: rest) s
      = Some (getMousePos rect clientX clientY s)) /\
  (forall rect s, getTouchPos rect [] s = None) /\
  (forall rect clientX clientY s,
      getMousePos rect clientX clientY s
      = mkPos ((clientX - rect_left rect)
               * (canvas_width s / rect_width rect))
              ((clientY - rect_top rect)
               * (canvas_height s / rect_height rect))) /\
  getMousePos (mkDOMRect 0 0 704 528) 0 0 mounted = mkPos 0 0 /\
  getMousePos (mkDOMRect 0 0 704 528) 704 528 mounted
  = mkPos 0x1.9000000000001p+9 600 /\
  (canvas_width mounted
   <? pos_x (getMousePos (mkDOMRect 0 0 704 528) 704 528 mounted)) = true.
Proof.
  repeat split; vm_compute; reflexivity.
Qed.

(** ** The drawings of a note *)

Lemma addDrawing_nth (noteId : string) (d : DrawingData) (allNotes : list Note) :
  forall (now : nat -> float) (i : nat) (note : Note),
    nth_error allNotes i = Some note ->
    exists t,
      nth_error (addDrawing noteId d now allNotes) i =
      Some (if String.eqb (note_id note) noteId
            then with_drawings (drawings_or_empty note ++ [d]) t note
            else note).
Proof.
  induction allNotes as [| n rest IH]; intros now i note H.
  - destruct i; discriminate H.
  - destruct i as [| i]; cbn [nth_error] in H.
    + injection H as ->. cbn [addDrawing].
      destruct (String.eqb (note_id note) noteId);
        [eexists; reflexivity | exists 0; reflexivity].
    + cbn [addDrawing]. destruct (String.eqb (note_id n) noteId);
        cbn [nth_error]; apply IH, H.
Qed.

Lemma removeDrawing_nth (noteId : string) (idx : nat) (allNotes : list Note) :
  forall (now : nat -> float) (i : nat) (note : Note),
    nth_error allNotes i = Some note ->
    exists t,
      nth_error (removeDrawing noteId idx now allNotes) i =
      Some (if String.eqb (note_id note) noteId
            then with_drawings (splice1 idx (drawings_or_empty note)) t note
            else note).
Proof.
  induction allNotes as [| n rest IH]; intros now i note H.
  - destruct i; discriminate H.
  - destruct i as [| i]; cbn [nth_error] in H.
    + injection H as ->. cbn [removeDrawing].
      destruct (String.eqb (note_id note) noteId);
        [eexists; reflexivity | exists 0; reflexivity].
    + cbn [removeDrawing]. destruct (String.eqb (note_id n) noteId);
        cbn [nth_error]; apply IH, H.
Qed.

Lemma addDrawing_ids (noteId : string) (d : DrawingData) (allNotes : list Note) :
  forall now, map note_id (addDrawing noteId d now allNotes)
              = map note_id allNotes.
Proof.
  induction allNotes as [| n rest IH]; intros now; [reflexivity |].
  cbn [addDrawing]. destruct (String.eqb (note_id n) noteId);
    cbn [map]; rewrite IH; reflexivity.
Qed.

Lemma addDrawing_no_match (noteId : string) (d : DrawingData)
  (allNotes : list Note) :
  forall now,
    (forall note, In note allNotes -> note_id note <> noteId) ->
    addDrawing noteId d now allNotes = allNotes.
Proof.
  induction allNotes as [| n rest IH]; intros now H; [reflexivity |].
  cbn [addDrawing].
  destruct (String.eqb_spec (note_id n) noteId) as [E | _].
  - exfalso. exact (H n (or_introl eq_refl) E).
  - f_equal. apply IH. intros note Hn. apply H. right. exact Hn.
Qed.

(** X17. [addDrawing] keeps the notes, their order and their ids; a note
    with the given id gets the drawing appended after the drawings it had
    (none, if it had no [drawings] field) and keeps its title, content,
    tags, creation time and pin; every other note is untouched.  When no
    note has the id the store is left as it is and the drawing is not
    kept anywhere. *)
Theorem addDrawing_appends
  (noteId : string) (d : DrawingData) (now : nat -> float)
  (allNotes : list Note) :
  map note_id (addDrawing noteId d now allNotes) = map note_id allNotes /\
  (forall i note,
      nth_error allNotes i = Some note ->
      exists note',
        nth_error (addDrawing noteId d now allNotes) i = Some note' /\
        if String.eqb (note_id note) noteId then
          drawings_or_empty note' = drawings_or_empty note ++ [d] /\
          note_title note' = note_title note /\
          note_content note' = note_content note /\
          note_tags note' = note_tags note /\
          note_createdAt note' = note_createdAt note /\
          note_isPinned note' = note_isPinned note
        else note' = note) /\
  ((forall note, In note allNotes -> note_id note <> noteId) ->
   addDrawing noteId d now allNotes = allNotes).
Proof.
  split; [apply addDrawing_ids | split; [| apply addDrawing_no_match]].
  intros i note H. destruct (addDrawing_nth noteId d allNotes now i note H)
    as (t & E).
  eexists. split; [exact E |].
  destruct (String.eqb (note_id note) noteId); [| reflexivity].
  repeat split; reflexivity.
Qed.

Lemma addDrawing_appends_witness :
  (exists note',
      nth_error (addDrawing "n1" small_snapshot (fun _ => 1) [sample_note]) 0
      = Some note' /\
      drawings_or_empty note' = [small_snapshot]) /\
  addDrawing "n2" small_snapshot (fun _ => 1) [sample_note] = [sample_note].
Proof.
  split.
  - destruct (addDrawing_appends "n1" small_snapshot (fun _ => 1) [sample_note])
      as (_ & H & _).
    destruct (H 0%nat sample_note eq_refl) as (note' & H1 & H2).
    exists note'. split; [exact H1 | exact (proj1 H2)].
  - apply (addDrawing_appends "n2" small_snapshot (fun _ => 1) [sample_note]).
    intros note [<- | []]. cbn. discriminate.
Defined.

Lemma splice1_last {A : Type} (l : list A) (a : A) :
  splice1 (length l) (l ++ [a]) = l.
Proof.
  unfold splice1. rewrite firstn_app, Nat.sub_diag, firstn_all. cbn [firstn].
  rewrite skipn_all2 by (rewrite length_app; cbn; lia).
  rewrite !app_nil_r. reflexivity.
Qed.

(** X18. Removing, from a note, the drawing that [addDrawing] has just
    appended (its index is the number of drawings the note had) gives the
    note its previous drawings back. *)
Theorem removeDrawing_undoes_addDrawing
  (noteId : string) (d : DrawingData) (now now' : nat -> float)
  (allNotes : list Note) (i : nat) (note : Note) :
  nth_error allNotes i = Some note ->
  note_id note = noteId ->
  exists note',
    nth_error
      (removeDrawing noteId (length (drawings_or_empty note)) now'
         (addDrawing noteId d now allNotes)) i = Some note' /\
    drawings_or_empty note' = drawings_or_empty note /\
    note_id note' = noteId.
Proof.
  intros H E.
  destruct (addDrawing_nth noteId d allNotes now i note H) as (t & H1).
  rewrite E, String.eqb_refl in H1.
  destruct (removeDrawing_nth noteId (length (drawings_or_empty note))
              _ now' i _ H1) as (t' & H2).
  cbn [note_id with_drawings] in H2. rewrite E, String.eqb_refl in H2.
  eexists. split; [exact H2 |].
  cbn. split; [apply splice1_last | exact E].
Qed.

Lemma removeDrawing_undoes_addDrawing_witness :
  exists note',
    nth_error
      (removeDrawing "n1" 0 (fun _ => 2)
         (addDrawing "n1" small_snapshot (fun _ => 1) [sample_note])) 0
    = Some note' /\
    drawings_or_empty note' = [] /\
    note_id note' = "n1"%string.
Proof.
  exact (removeDrawing_undoes_addDrawing "n1" small_snapshot
           (fun _ => 1) (fun _ => 2) [sample_note] 0 sample_note
           eq_refl eq_refl).
Defined.

Lemma splice1_nth {A : Type} (idx : nat) (l : list A) (j : nat) :
  nth_error (splice1 idx l) j =
  if (j <? idx)%nat then nth_error l j else nth_error l (S j).
Proof.
  unfold splice1. destruct (Nat.ltb_spec j idx) as [H | H].
  - destruct (Nat.le_gt_cases (length l) j) as [L | L].
    + rewrite (proj2 (nth_error_None l j) L).
      apply nth_error_None.
      rewrite length_app, length_firstn, length_skipn. lia.
    + rewrite nth_error_app1 by (rewrite length_firstn; lia).
      rewrite nth_error_firstn.
      replace (j <? idx)%nat with true by (symmetry; apply Nat.ltb_lt; lia).
      reflexivity.
  - destruct (Nat.le_gt_cases (length l) idx) as [L | L].
    + rewrite firstn_all2, skipn_all2, app_nil_r by lia.
      rewrite (proj2 (nth_error_None l j)) by lia.
      symmetry. apply nth_error_None. lia.
    + rewrite nth_error_app2 by (rewrite length_firstn; lia).
      rewrite length_firstn, nth_error_skipn.
      f_equal. lia.
Qed.

(** X19. [removeDrawing] takes exactly the drawing at the given index out of
    the note with the given id: the drawings before it keep their index,
    the drawings after it move down by one; an index past the end removes
    nothing. *)
Theorem removeDrawing_removes_one
  (noteId : string) (idx : nat) (now : nat -> float)
  (allNotes : list Note) (i : nat) (note : Note) :
  nth_error allNotes i = Some note ->
  note_id note = noteId ->
  exists note',
    nth_error (removeDrawing noteId idx now allNotes) i = Some note' /\
    (forall j,
        nth_error (drawings_or_empty note') j =
        if (j <? idx)%nat then nth_error (drawings_or_empty note) j
        else nth_error (drawings_or_empty note) (S j)) /\
    ((length (drawings_or_empty note) <= idx)%nat ->
     drawings_or_empty note' = drawings_or_empty note).
Proof.
  intros H E.
  destruct (removeDrawing_nth noteId idx allNotes now i note H) as (t & H1).
  rewrite E, String.eqb_refl in H1.
  eexists. split; [exact H1 |]. cbn. split.
  - intros j. apply splice1_nth.
  - intros L. unfold splice1.
    rewrite firstn_all2, skipn_all2, app_nil_r by lia. reflexivity.
Qed.

Lemma removeDrawing_removes_one_witness :
  exists note',
    nth_error (removeDrawing "n1" 3 (fun _ => 2) [sample_note]) 0 = Some note' /\
    drawings_or_empty note' = drawings_or_empty sample_note.
Proof.
  destruct (removeDrawing_removes_one "n1" 3 (fun _ => 2) [sample_note] 0
              sample_note eq_refl eq_refl) as (note' & H1 & _ & H3).
  exists note'. split; [exact H1 | apply H3; cbn; lia].
Defined.

(** X20. Handling the [save] event with a current note closes the drawing
    surface and puts the detail of the event last among the drawings of that
    note, after those it had.  Without a current note the store and the
    surface stay as they are: the detail is not kept. *)
Theorem saved_drawing_stored
  (drawingData : DrawingData) (now : nat -> float) (allNotes : list Note)
  (showDrawing : bool) (i : nat) (note : Note) :
  nth_error allNotes i = Some note ->
  (exists note',
      nth_error (fst (handleDrawingSave (Some note) drawingData now allNotes
                        showDrawing)) i = Some note' /\
      drawings_or_empty note' = drawings_or_empty note ++ [drawingData]) /\
  snd (handleDrawingSave (Some note) drawingData now allNotes showDrawing)
  = false /\
  handleDrawingSave None drawingData now allNotes showDrawing
  = (allNotes, showDrawing).
Proof.
  intros H. split; [| split; reflexivity].
  cbn [handleDrawingSave fst].
  destruct (addDrawing_nth (note_id note) drawingData allNotes now i note H)
    as (t' & E).
  rewrite String.eqb_refl in E.
  eexists. split; [exact E | reflexivity].
Qed.

Lemma saved_drawing_stored_witness :
  (exists note',
      nth_error (fst (handleDrawingSave (Some sample_note) small_snapshot
                        (fun _ => 7) [sample_note] true)) 0 = Some note' /\
      drawings_or_empty note' = [small_snapshot]) /\
  snd (handleDrawingSave (Some sample_note) small_snapshot
         (fun _ => 7) [sample_note] true) = false.
Proof.
  destruct (saved_drawing_stored small_snapshot (fun _ => 7) [sample_note] true
              0 sample_note eq_refl) as (H1 & H2 & _).
  split; [exact H1 | exact H2].
Defined.

(** ** The eraser gesture as a whole *)

Lemma moves_eraser (moves : list Pos) (s : Canvas) :
  isDrawing s = true ->
  currentTool s = Tool.eraser ->
  drawings (fold_left (fun st pos => draw pos st) moves s) =
  fold_left (fun ds p => erased (pos_x p) (pos_y p) (strokeWidth s * 3) ds)
    moves (drawings s).
Proof.
  revert s. induction moves as [| pos moves IH]; intros s Hd Ht;
    [reflexivity |].
  cbn [fold_left].
  assert (E : draw pos s =
              erase (pos_x pos) (pos_y pos)
                (set_current (pos_x pos) (pos_y pos) s)).
  { unfold draw. rewrite Hd. cbn. rewrite Ht. reflexivity. }
  rewrite E, IH; [reflexivity | exact Hd | exact Ht].
Qed.

Lemma eraser_gesture_drawings (down : Pos) (moves : list Pos) (s : Canvas) :
  currentTool s = Tool.eraser ->
  drawings (gesture down moves s) =
  fold_left (fun ds p => erased (pos_x p) (pos_y p) (strokeWidth s * 3) ds)
    (down :: moves) (drawings s).
Proof.
  intros Ht.
  destruct (startDrawing_frame down s)
    as (Hi & _ & Htool & _ & Hw & _).
  destruct (drag_frame down moves s) as (_ & _ & Hi' & Htool' & _).
  unfold gesture. rewrite stopDrawing_eraser;
    [| exact Hi' | rewrite Htool'; exact Ht].
  unfold drag. rewrite moves_eraser; [| exact Hi | rewrite Htool; exact Ht].
  rewrite Hw, (proj1 (eraser_startDrawing down s Ht)). reflexivity.
Qed.

(** X21. An eraser gesture leaves the shape list that results from erasing
    at the pointer-down position and then at each move sample, in order,
    all with the radius of the stroke width selected when the gesture
    began.  On a component whose drawing context exists, when the
    pointer-down sample itself erases nothing and the shape list is read
    back by JSON as printed, one undo after the gesture gives back the
    shape list the gesture started from.  On a component whose drawing
    context is undefined the gesture takes no snapshot at all. *)
Theorem eraser_gesture_result (s : Canvas) (down : Pos) (moves : list Pos) :
  currentTool s = Tool.eraser ->
  drawings (gesture down moves s) =
    fold_left (fun ds p => erased (pos_x p) (pos_y p) (strokeWidth s * 3) ds)
      (down :: moves) (drawings s) /\
  (ctx s = true ->
   representable (drawings s) ->
   erased (pos_x down) (pos_y down) (strokeWidth s * 3) (drawings s)
   = drawings s ->
   drawings (undo (gesture down moves s)) = drawings s) /\
  (ctx s = false -> undoStack (gesture down moves s) = undoStack s).
Proof.
  intros Ht. split; [exact (eraser_gesture_drawings down moves s Ht) |].
  split.
  - intros C R H.
    rewrite (eraser_gesture_undo down moves s Ht C), erase_erased, H.
    apply representable_reread, R.
  - intros C. rewrite gesture_undoStack.
    destruct (eraser_startDrawing down s Ht) as (_ & ->). rewrite C.
    reflexivity.
Qed.

Lemma eraser_gesture_result_witness :
  let s := selectTool Tool.eraser three_point_stroke in
  drawings (gesture (mkPos 50 100) [mkPos 50 0] s) =
    fold_left (fun ds p => erased (pos_x p) (pos_y p) (strokeWidth s * 3) ds)
      [mkPos 50 100; mkPos 50 0] (drawings s) /\
  drawings (undo (gesture (mkPos 50 100) [mkPos 50 0] s)) = drawings s.
Proof.
  destruct (eraser_gesture_result (selectTool Tool.eraser three_point_stroke)
              (mkPos 50 100) [mkPos 50 0] eq_refl) as (H1 & H2 & _).
  split; [exact H1 |].
  apply H2; vm_compute; reflexivity.
Defined.

Lemma erased_samples_perm (r : float) (samples samples' : list Pos) :
  Permutation samples samples' ->
  forall ds,
    fold_left (fun ds p => erased (pos_x p) (pos_y p) r ds) samples ds =
    fold_left (fun ds p => erased (pos_x p) (pos_y p) r ds) samples' ds.
Proof.
  induction 1 as [| p l l' _ IH | p q l | l l' l'' _ IH1 _ IH2]; intros ds.
  - reflexivity.
  - cbn [fold_left]. apply IH.
  - cbn [fold_left]. rewrite erased_comm. reflexivity.
  - rewrite IH1. apply IH2.
Qed.

(** X22. What an eraser gesture leaves does not depend on the order of its
    samples: two eraser gestures from the same state whose pointer-down
    and move positions are the same up to order leave the same shape
    list. *)
Theorem eraser_samples_order
  (s : Canvas) (down down' : Pos) (moves moves' : list Pos) :
  currentTool s = Tool.eraser ->
  Permutation (down :: moves) (down' :: moves') ->
  drawings (gesture down moves s) = drawings (gesture down' moves' s).
Proof.
  intros Ht Hp. rewrite !eraser_gesture_drawings by exact Ht.
  apply erased_samples_perm, Hp.
Qed.

Lemma eraser_samples_order_witness :
  let s := selectTool Tool.eraser three_point_stroke in
  drawings (gesture (mkPos 50 100) [mkPos 50 0] s) =
  drawings (gesture (mkPos 50 0) [mkPos 50 100] s).
Proof.
  apply (eraser_samples_order (selectTool Tool.eraser three_point_stroke)
           (mkPos 50 100) (mkPos 50 0) [mkPos 50 0] [mkPos 50 100]
           eq_refl).
  apply perm_swap.
Defined.

(** ** Before the pointer is released *)

(** X23. With any tool but the eraser, nothing is committed before the
    pointer is released: after the pointer-down and any number of move
    samples the shape list and the redo stack are as they were, and the
    undo stack has received exactly one snapshot, that of the shape list
    the gesture started from. *)
Theorem nothing_committed_before_release
  (s : Canvas) (down : Pos) (moves : list Pos) :
  currentTool s <> Tool.eraser ->
  drawings (drag down moves s) = drawings s /\
  redoStack (drag down moves s) = redoStack s /\
  undoStack (drag down moves s) =
  push50 (undoStack s) (JSON_stringify (drawings s)).
Proof.
  intros Ht. destruct (drag_frame down moves s) as (Hu & Hr & _).
  split; [exact (drag_drawings down moves s Ht) |].
  split; [exact Hr |].
  rewrite Hu. exact (startDrawing_undoStack down s Ht).
Qed.

Lemma nothing_committed_before_release_witness :
  drawings (drag (mkPos 0 0) [mkPos 40 40; mkPos 80 60] rectangle_ready)
  = drawings rectangle_ready.
Proof.
  apply (nothing_committed_before_release rectangle_ready (mkPos 0 0)
           [mkPos 40 40; mkPos 80 60]).
  vm_compute. discriminate.
Defined.

(** ** The history on a component whose drawing context exists *)

(** X24. On a component mounted with its canvas element in place, whatever
    gestures, undos, redos, clear-alls and tool or style selections it has
    gone through, the undo stack has at most 50 entries.  A snapshot taken
    on a full stack drops the oldest entry and is put last.  After 60
    committing gestures on a freshly mounted component, however mounted,
    the shape list has 60 shapes and the undo stack exactly 50 entries: the
    snapshots taken at the start of the 50 latest commits, that is the
    first 10, 11, ..., 59 shapes, oldest first. *)
Theorem undo_stack_bounded :
  (forall ops width height init,
      (length (undoStack (run ops (onMount true width height init))) <= 50)%nat)
  /\
  (forall s,
      length (undoStack s) = 50%nat ->
      undoStack (saveState s) =
      tl (undoStack s) ++ [JSON_stringify (drawings s)]) /\
  (forall cs canvas width height,
      length cs = 60%nat ->
      Forall committing cs ->
      let s := run (flat_map stroke_ops cs) (onMount canvas width height None) in
      length (drawings s) = 60%nat /\
      length (undoStack s) = 50%nat /\
      undoStack s =
      map (fun k => JSON_stringify (firstn k (drawings s))) (seq 10 50)).
Proof.
  split; [| split].
  - intros ops width height init.
    pose proof (run_bound ops (onMount true width height init)) as H.
    destruct (onMount_stacks true width height init) as (Hu & Hr).
    rewrite Hu, Hr in H.
    specialize (H (onMount_ctx true width height init) ltac:(cbn; lia)). lia.
  - intros s H. rewrite undoStack_saveState. apply push50_full, H.
  - intros cs canvas width height Hlen Hc.
    destruct (strokes_history cs (onMount canvas width height None) 0)
      as (Hd & Hu);
      [rewrite onMount_empty; reflexivity
      | rewrite onMount_empty; apply (onMount_stacks canvas width height None)
      | exact Hc |].
    cbn zeta. rewrite Hlen in Hd, Hu. cbn [Nat.add] in Hd, Hu.
    split; [exact Hd |]. rewrite Hu. unfold recent_snapshots.
    change (60 - 50)%nat with 10%nat. change (Nat.min 60 50) with 50%nat.
    split; [rewrite length_map, length_seq |]; reflexivity.
Qed.

Lemma undo_stack_bounded_witness :
  let s := run (flat_map stroke_ops
                  (repeat (mkStroke Tool.pen (mkPos 0 0) [mkPos 10 10]) 60))
             (onMount true 800 600 None) in
  length (drawings s) = 60%nat /\ length (undoStack s) = 50%nat.
Proof.
  destruct undo_stack_bounded as (_ & _ & H60).
  destruct (H60 (repeat (mkStroke Tool.pen (mkPos 0 0) [mkPos 10 10]) 60)
              true 800 600) as (Hd & Hlen & _).
  - apply repeat_length.
  - apply Forall_forall. intros c Hc. apply repeat_spec in Hc. subst c.
    cbn. discriminate.
  - split; [exact Hd | exact Hlen].
Defined.

Lemma redoStack_undo (s : Canvas) :
  redoStack (undo s) =
  match undoStack s with
  | [] => redoStack s
  | _ :: _ => redoStack s ++ [JSON_stringify (drawings s)]
  end.
Proof.
  destruct (undoStack s) as [| a l] eqn:U.
  - unfold undo. rewrite U. reflexivity.
  - assert (H : undoStack s <> []) by (rewrite U; discriminate).
    destruct (nonempty_snoc _ H) as (u & x & Hu).
    rewrite (undo_snoc s u x Hu).
    match goal with |- context [restore x ?t] =>
      destruct (restore_frame x t) as (_ & -> & _) end.
    reflexivity.
Qed.

(** X25. On a component whose drawing context exists, after a gesture (with
    any tool: a committed shape, an erase) and after clear-all the redo
    stack is empty and [redo()] changes nothing.  Redo entries are only
    ever added by [undo()], one for each undo on a non-empty undo stack. *)
Theorem redo_invalidated_by_actions :
  (forall s down moves,
      ctx s = true ->
      redoStack (gesture down moves s) = [] /\
      redo (gesture down moves s) = gesture down moves s) /\
  (forall s,
      ctx s = true ->
      redoStack (clearDrawing s) = [] /\
      redo (clearDrawing s) = clearDrawing s) /\
  (forall s,
      redoStack (undo s) =
      match undoStack s with
      | [] => redoStack s
      | _ :: _ => redoStack s ++ [JSON_stringify (drawings s)]
      end).
Proof.
  split; [| split].
  - intros s down moves C. pose proof (gesture_redoStack down moves s C) as H.
    split; [exact H | apply redo_empty, H].
  - intros s C. rewrite (clearDrawing_open s C).
    split; [reflexivity | apply redo_empty; reflexivity].
  - exact redoStack_undo.
Qed.

Lemma redo_invalidated_by_actions_witness :
  redoStack (gesture (mkPos 20 20) [mkPos 30 30] (undo one_stroke)) = [] /\
  redoStack (clearDrawing (undo one_stroke)) = [].
Proof.
  destruct redo_invalidated_by_actions as (H1 & H2 & _). split.
  - apply (H1 (undo one_stroke) (mkPos 20 20) [mkPos 30 30]).
    vm_compute. reflexivity.
  - apply (H2 (undo one_stroke)). vm_compute. reflexivity.
Defined.

(** X26. On a component whose drawing context exists, the end of a gesture
    empties the redo stack whatever the gesture did.  In particular, after
    an [undo()], a click with the pen, or a shape-tool gesture that passes
    the threshold test, leaves the shape list as the undo left it and still
    throws away the redo entry the undo had just made: [redo()] then does
    nothing. *)
Theorem stray_click_kills_redo (s : Canvas) (down : Pos) (moves : list Pos) :
  ctx s = true ->
  undoStack s <> [] ->
  (currentTool s = Tool.pen /\ moves = []) \/
  (is_shape_tool (currentTool s) = true /\
   under_threshold down (last moves down) = true) ->
  let s1 := undo s in
  let s2 := gesture down moves s1 in
  redoStack s1 <> [] /\
  drawings s2 = drawings s1 /\
  redoStack s2 = [] /\
  redo s2 = s2.
Proof.
  intros C Hu Hcase s1 s2.
  assert (Hr : redoStack s1 = redoStack s ++ [JSON_stringify (drawings s)]).
  { unfold s1. rewrite redoStack_undo.
    destruct (undoStack s); [congruence | reflexivity]. }
  assert (Htool : currentTool s1 = currentTool s).
  { unfold s1, undo. destruct (undoStack s); [reflexivity |].
    match goal with |- context [restore ?x ?t] =>
      destruct (restore_frame x t) as (_ & _ & -> & _) end.
    reflexivity. }
  assert (C1 : ctx s1 = true) by (unfold s1; rewrite undo_ctx; exact C).
  repeat split.
  - rewrite Hr. intros E. destruct (redoStack s); discriminate E.
  - destruct Hcase as [(Ht & ->) | (Ht & Hsmall)].
    + apply pen_click. rewrite Htool. exact Ht.
    + apply small_gesture_keeps; [rewrite Htool; exact Ht | exact Hsmall].
  - apply gesture_redoStack, C1.
  - apply redo_empty, gesture_redoStack, C1.
Qed.

Lemma stray_click_kills_redo_witness :
  let s1 := undo one_stroke in
  let s2 := gesture (mkPos 3 4) [] s1 in
  redoStack s1 <> [] /\
  drawings s2 = drawings s1 /\
  redoStack s2 = [] /\
  redo s2 = s2.
Proof.
  apply (stray_click_kills_redo one_stroke (mkPos 3 4) []).
  - vm_compute. reflexivity.
  - vm_compute. discriminate.
  - left. split; vm_compute; reflexivity.
Defined.

(** ** What JSON reads back *)

Lemma reread_idem (ds : list Shape) : reread (reread ds) = reread ds.
Proof.
  apply representable_reread, reread_representable.
Qed.

(** X27. [JSON.parse] of the text [JSON.stringify] makes of a shape list
    gives a list of the same shapes in the same order in which every number
    that is finite and not -0 is unchanged, NaN and the infinities have
    become [null] and -0 has become 0.  Printing that list again gives the
    same text, and reading it again changes nothing more.  A list whose
    numbers are all finite and not -0 is read back exactly. *)
Theorem snapshot_read_back (ds : list Shape) :
  JSON_parse (JSON_stringify ds) = Some (reread ds) /\
  length (reread ds) = length ds /\
  JSON_stringify (reread ds) = JSON_stringify ds /\
  reread (reread ds) = reread ds /\
  (Forall plain_shape ds -> JSON_parse (JSON_stringify ds) = Some ds) /\
  reread_value nan = Null /\
  reread_value infinity = Null /\
  reread_value (-0) = Num 0 /\
  (forall f, is_finite f = true -> (f =? 0) = false ->
             reread_value (Num f) = Num f).
Proof.
  split; [apply JSON_roundtrip |].
  split; [apply length_map |].
  split; [apply stringify_reread |].
  split; [apply reread_idem |].
  split; [apply plain_representable |].
  repeat split; try reflexivity.
  intros f F Z. unfold reread_value. rewrite F, Z. reflexivity.
Qed.

Lemma snapshot_read_back_witness :
  JSON_parse (JSON_stringify (drawings one_stroke)) =
  Some (drawings one_stroke).
Proof.
  apply (snapshot_read_back (drawings one_stroke)).
  vm_compute.
  repeat first [ split | apply Forall_cons | apply Forall_nil
               | left; reflexivity | right; reflexivity ].
Defined.

(** ** The component as the editor mounts it *)

Lemma restore_size (x : json) (s : Canvas) :
  canvas_width (restore x s) = canvas_width s /\
  canvas_height (restore x s) = canvas_height s.
Proof. unfold restore. destruct (JSON_parse x); split; reflexivity. Qed.

Lemma draw_size (pos : Pos) (s : Canvas) :
  canvas_width (draw pos s) = canvas_width s /\
  canvas_height (draw pos s) = canvas_height s.
Proof.
  unfold draw. destruct (isDrawing s); cbn [negb]; [| split; reflexivity].
  cbn. destruct (currentTool s); split; reflexivity.
Qed.

Lemma startDrawing_size (down : Pos) (s : Canvas) :
  canvas_width (startDrawing down s) = canvas_width s /\
  canvas_height (startDrawing down s) = canvas_height s.
Proof.
  unfold startDrawing, redrawCanvas. cbn.
  destruct (currentTool s); cbn; try (split; reflexivity).
  destruct (ctx s); split; reflexivity.
Qed.

Lemma stopDrawing_size (s : Canvas) :
  canvas_width (stopDrawing s) = canvas_width s /\
  canvas_height (stopDrawing s) = canvas_height s.
Proof.
  unfold stopDrawing, redrawCanvas.
  destruct (isDrawing s); cbn [negb]; [| split; reflexivity].
  cbn -[Nat.ltb createShape].
  destruct (currentTool s); cbn -[Nat.ltb createShape];
    repeat match goal with
           | |- context [(?a <? ?b)%nat] => destruct (a <? b)%nat
           | |- context [match createShape ?t with Some _ => _ | None => _ end] =>
               destruct (createShape t)
           end; cbn; destruct (ctx s); split; reflexivity.
Qed.

Lemma gesture_size (down : Pos) (moves : list Pos) (s : Canvas) :
  canvas_width (gesture down moves s) = canvas_width s /\
  canvas_height (gesture down moves s) = canvas_height s.
Proof.
  unfold gesture, drag.
  destruct (stopDrawing_size
              (fold_left (fun st pos => draw pos st) moves
                 (startDrawing down s))) as (-> & ->).
  destruct (startDrawing_size down s) as (<- & <-).
  generalize (startDrawing down s).
  induction moves as [| pos moves IH]; intros st; [split; reflexivity |].
  cbn [fold_left]. destruct (IH (draw pos st)) as (-> & ->).
  apply draw_size.
Qed.

Lemma step_size (o : Op) (s : Canvas) :
  canvas_width (step o s) = canvas_width s /\
  canvas_height (step o s) = canvas_height s.
Proof.
  destruct o; cbn [step]; try (split; reflexivity).
  - apply gesture_size.
  - unfold undo. destruct (undoStack s); [split; reflexivity |].
    match goal with |- context [restore ?x ?t] =>
      destruct (restore_size x t) as (-> & ->) end.
    split; reflexivity.
  - unfold redo. destruct (redoStack s); [split; reflexivity |].
    match goal with |- context [restore ?x ?t] =>
      destruct (restore_size x t) as (-> & ->) end.
    split; reflexivity.
  - unfold clearDrawing, redrawCanvas. cbn. destruct (ctx s); split; reflexivity.
Qed.

Lemma run_size (ops : list Op) (s : Canvas) :
  canvas_width (run ops s) = canvas_width s /\
  canvas_height (run ops s) = canvas_height s.
Proof.
  revert s. induction ops as [| o ops IH]; intros s; [split; reflexivity |].
  cbn [run fold_left]. change (fold_left _ ops (step o s)) with (run ops (step o s)).
  destruct (IH (step o s)) as (-> & ->). apply step_size.
Qed.

(** X28. The component as the editor mounts it, behind a closed modal,
    whatever props it is given and whatever it then goes through: its
    drawing context stays undefined; no gesture and no clear-all empties
    the redo stack; an eraser gesture takes no snapshot; and the snapshot
    [saveDrawing] hands over reports the default size of a canvas element,
    300 x 150, not the [width] and [height] props. *)
Theorem closed_mount_behaviour
  (ops : list Op) (width height : float) (init : option DrawingData) :
  let s := run ops (onMount false width height init) in
  ctx s = false /\
  (forall down moves, redoStack (gesture down moves s) = redoStack s) /\
  redoStack (clearDrawing s) = redoStack s /\
  (forall down moves,
      currentTool s = Tool.eraser ->
      undoStack (gesture down moves s) = undoStack s) /\
  (forall now,
      dd_width (saveDrawing now s) = 300 /\
      dd_height (saveDrawing now s) = 150).
Proof.
  cbn zeta.
  assert (C : ctx (run ops (onMount false width height init)) = false)
    by (rewrite run_ctx; reflexivity).
  split; [exact C |].
  split; [intros; apply gesture_redoStack_closed, C |].
  split; [rewrite (clearDrawing_closed _ C); reflexivity |].
  split.
  - intros down moves Ht. rewrite gesture_undoStack.
    destruct (eraser_startDrawing down _ Ht) as (_ & ->). rewrite C.
    reflexivity.
  - intros now. unfold saveDrawing. cbn [dd_width dd_height].
    destruct (run_size ops (onMount false width height init)) as (-> & ->).
    split; reflexivity.
Qed.

(** ** The order of binary64 numbers *)

Lemma SFcompare_finite_pos (m1 m2 : positive) (e1 e2 : Z) :
  SFcompare (S754_finite false m1 e1) (S754_finite false m2 e2) =
  Some (match (e1 ?= e2)%Z with
        | Eq => (m1 ?= m2)%positive
        | Lt => Lt
        | Gt => Gt
        end).
Proof. reflexivity. Qed.

Lemma SFcompare_finite_neg (m1 m2 : positive) (e1 e2 : Z) :
  SFcompare (S754_finite true m1 e1) (S754_finite true m2 e2) =
  Some (match (e1 ?= e2)%Z with
        | Eq => CompOpp (m1 ?= m2)%positive
        | Lt => Gt
        | Gt => Lt
        end).
Proof. reflexivity. Qed.

Ltac order_cases :=
  repeat match goal with
         | H : context [(?a ?= ?b)%Z] |- _ =>
             destruct (Z.compare_spec a b); try discriminate H
         | H : context [(?a ?= ?b)%positive] |- _ =>
             destruct (Pos.compare_spec a b); cbn [CompOpp] in H;
             try discriminate H
         | |- context [(?a ?= ?b)%Z] => destruct (Z.compare_spec a b)
         | |- context [(?a ?= ?b)%positive] =>
             destruct (Pos.compare_spec a b); cbn [CompOpp]
         end;
  try reflexivity; try lia.

Lemma SFleb_SFltb_trans (a b c : spec_float) :
  SFleb a b = true -> SFltb b c = true -> SFltb a c = true.
Proof.
  unfold SFleb, SFltb.
  destruct a as [sa | sa | | sa ma ea], b as [sb | sb | | sb mb eb],
    c as [sc | sc | | sc mc ec];
    try destruct sa; try destruct sb; try destruct sc;
    rewrite ?SFcompare_finite_pos, ?SFcompare_finite_neg;
    cbn -[Z.compare Pos.compare]; intros H1 H2;
    try discriminate H1; try discriminate H2; try reflexivity;
    order_cases.
Qed.

Lemma SFleb_trans (a b c : spec_float) :
  SFleb a b = true -> SFleb b c = true -> SFleb a c = true.
Proof.
  unfold SFleb.
  destruct a as [sa | sa | | sa ma ea], b as [sb | sb | | sb mb eb],
    c as [sc | sc | | sc mc ec];
    try destruct sa; try destruct sb; try destruct sc;
    rewrite ?SFcompare_finite_pos, ?SFcompare_finite_neg;
    cbn -[Z.compare Pos.compare]; intros H1 H2;
    try discriminate H1; try discriminate H2; try reflexivity;
    order_cases.
Qed.

Lemma leb_ltb_trans (a b c : float) :
  (a <=? b) = true -> (b <? c) = true -> (a <? c) = true.
Proof. rewrite leb_spec, !ltb_spec. apply SFleb_SFltb_trans. Qed.

Lemma leb_trans (a b c : float) :
  (a <=? b) = true -> (b <=? c) = true -> (a <=? c) = true.
Proof. rewrite !leb_spec. apply SFleb_trans. Qed.

(** X14. A larger radius erases at least as much of lines and paths: a
    sample that hits a line with radius [r] hits it with any radius
    [r' >= r], and the points of a path that survive radius [r'] are among
    those that survive [r]. *)
Theorem hit_test_monotone (x y r r' : float) :
  (r <=? r') = true ->
  (forall x1 y1 x2 y2 c w ro,
      isPointInShape x y (Line x1 y1 x2 y2 c w ro) r = true ->
      isPointInShape x y (Line x1 y1 x2 y2 c w ro) r' = true) /\
  (forall pts p,
      In p (far_points x y r' pts) -> In p (far_points x y r pts)).
Proof.
  intros Hr. split.
  - intros x1 y1 x2 y2 c w ro. cbn [isPointInShape]. intros H.
    exact (leb_trans _ _ _ H Hr).
  - intros pts p. rewrite !far_points_In. intros [H1 H2].
    split; [exact H1 | exact (leb_ltb_trans _ _ _ Hr H2)].
Qed.

Lemma hit_test_monotone_witness :
  isPointInShape 100 3 (Line 0 0 10 0 "#000000" 2 1) 6 = true.
Proof.
  apply (proj1 (hit_test_monotone 100 3 3 6 ltac:(vm_compute; reflexivity))).
  vm_compute. reflexivity.
Defined.

(** ** Integer coordinates *)

Lemma below_spec (n : nat) (f : nat -> bool) :
  below n f = true -> forall k, (k < n)%nat -> f k = true.
Proof.
  unfold below. intros H k Hk. rewrite forallb_forall in H.
  apply H, in_seq. lia.
Qed.

Lemma threshold_agrees :
  below 24 (fun a => below 24 (fun b => below 24 (fun c => below 24 (fun d =>
    Bool.eqb (under_threshold (mkPos (pix a) (pix b)) (mkPos (pix c) (pix d)))
      (within_5px_int a b c d))))) = true.
Proof. vm_compute. reflexivity. Qed.

Lemma eraser_agrees :
  below 12 (fun a => below 12 (fun b => below 12 (fun x => below 12 (fun y =>
  below 12 (fun w =>
    Bool.eqb (pix w * 3 <? dist (mkPoint (pix a) (pix b)) (pix x) (pix y))
      (farther_int a b x y (3 * w))))))) = true.
Proof. vm_compute. reflexivity. Qed.

Lemma line_test_agrees :
  below 6 (fun x1 => below 6 (fun y1 => below 6 (fun x2 => below 6 (fun y2 =>
  below 6 (fun x => below 6 (fun y => below 6 (fun r =>
    Bool.eqb
      (isPointInShape (pix x) (pix y)
         (Line (pix x1) (pix y1) (pix x2) (pix y2) "#000000" 2 1) (pix r))
      (near_line_int x1 y1 x2 y2 x y r)))))))) = true.
Proof. vm_compute. reflexivity. Qed.

(** X29. On integer coordinates the rounded tests agree with the conditions
    on the numbers themselves.  For all integer positions from 0 to 23, the
    threshold test of the shape factory holds exactly when both extents are
    below 5.  For all integer positions and stroke widths from 0 to 11, the
    eraser keeps a path point exactly when it is farther than three times
    the stroke width from the sample.  For all integer end points, query
    points and radii from 0 to 5, the hit test of a line answers yes exactly
    when the end points are distinct and the perpendicular distance from the
    query point to the infinite line is at most the radius. *)
Theorem integer_positions_exact :
  (forall a b c d,
      (a < 24)%nat -> (b < 24)%nat -> (c < 24)%nat -> (d < 24)%nat ->
      under_threshold (mkPos (pix a) (pix b)) (mkPos (pix c) (pix d))
      = within_5px_int a b c d) /\
  (forall a b x y w,
      (a < 12)%nat -> (b < 12)%nat -> (x < 12)%nat -> (y < 12)%nat ->
      (w < 12)%nat ->
      (pix w * 3 <? dist (mkPoint (pix a) (pix b)) (pix x) (pix y))
      = farther_int a b x y (3 * w)) /\
  (forall x1 y1 x2 y2 x y r,
      (x1 < 6)%nat -> (y1 < 6)%nat -> (x2 < 6)%nat -> (y2 < 6)%nat ->
      (x < 6)%nat -> (y < 6)%nat -> (r < 6)%nat ->
      isPointInShape (pix x) (pix y)
        (Line (pix x1) (pix y1) (pix x2) (pix y2) "#000000" 2 1) (pix r)
      = near_line_int x1 y1 x2 y2 x y r).
Proof.
  split; [| split].
  - intros a b c d Ha Hb Hc Hd. apply Bool.eqb_prop.
    exact (below_spec _ _
             (below_spec _ _
                (below_spec _ _
                   (below_spec _ _ threshold_agrees a Ha) b Hb) c Hc) d Hd).
  - intros a b x y w Ha Hb Hx Hy Hw. apply Bool.eqb_prop.
    exact (below_spec _ _
             (below_spec _ _
                (below_spec _ _
                   (below_spec _ _
                      (below_spec _ _ eraser_agrees a Ha) b Hb) x Hx) y Hy)
             w Hw).
  - intros x1 y1 x2 y2 x y r H1 H2 H3 H4 H5 H6 H7. apply Bool.eqb_prop.
    exact (below_spec _ _
             (below_spec _ _
                (below_spec _ _
                   (below_spec _ _
                      (below_spec _ _
                         (below_spec _ _
                            (below_spec _ _ line_test_agrees x1 H1) y1 H2)
                         x2 H3) y2 H4) x H5) y H6) r H7).
Qed.

Lemma integer_positions_exact_witness :
  under_threshold (mkPos (pix 10) (pix 10)) (mkPos (pix 12) (pix 13))
  = within_5px_int 10 10 12 13.
Proof.
  apply (proj1 integer_positions_exact 10 10 12 13)%nat; lia.
Defined.
